(** * Invoice PDF Processor (app.py): a shallow embedding and its properties

    The Streamlit script [app.py] uploads PDF invoices, rasterises the first
    page of each, asks a vision model for the invoice fields, digs the JSON
    object out of the free-text reply, renames the keys to canonical field
    names and collects one record per document into a table.

    Modelling conventions.
    - A Python [str] is a [string]; the model is exact for ASCII text.  Bytes
      above 127 stand for UTF-8 encoded text and are left alone by [strip]
      and [upper].
    - A Python [dict] is an association list in insertion order without
      repeated keys ([dict_set] overwrites in place or appends).
    - Python [int] is [Z]; the counters of the instrumentation are [nat].
    - [json.loads], [re.search], [sorted], [pd.DataFrame] and [reindex] are
      library code: they are modelled after their documented behaviour, as
      far as the script uses them.  Float literals keep their lexeme; the
      interpreter's recursion limit is not modelled.
    - The outside world (pdf2image, the OpenAI client) is an oracle that
      says, for each attempt on a document, what rasterisation and the model
      call do.  Effects (files of temp_dir, calls made, seconds slept,
      messages shown) are threaded through an explicit state [env].
    - The prompt, the base64 encoding of the image and the CSV bytes are
      pure and have no bearing on control flow; they are left out. *)

From Stdlib Require Import ZArith Ascii String Permutation Sorted Lia.
From stdpp Require Import base list strings sorting gmap.

Local Open Scope Z_scope.

(** ** Python text primitives *)

Module PyStr.

(** [str.isspace] on one ASCII character: TAB..CR, FS..US and SPACE. *)
Definition isspace (c : ascii) : bool :=
  let n := N_of_ascii c in
  ((9 <=? n) && (n <=? 13) || (28 <=? n) && (n <=? 32))%N.

Definition upper_char (c : ascii) : ascii :=
  let n := N_of_ascii c in
  if ((97 <=? n) && (n <=? 122))%N then ascii_of_N (n - 32) else c.

(** [s.upper()] *)
Fixpoint upper (s : string) : string :=
  match s with
  | EmptyString => EmptyString
  | String c r => String (upper_char c) (upper r)
  end.

(** [s.lstrip()] *)
Fixpoint lstrip (s : string) : string :=
  match s with
  | EmptyString => EmptyString
  | String c r => if isspace c then lstrip r else s
  end.

(** [s.rstrip()] *)
Fixpoint rstrip (s : string) : string :=
  match s with
  | EmptyString => EmptyString
  | String c r =>
      match rstrip r with
      | EmptyString => if isspace c then EmptyString else String c EmptyString
      | r' => String c r'
      end
  end.

(** [s.strip()] *)
Definition strip (s : string) : string := rstrip (lstrip s).

(** [sorted(names)] on a list of strings: a merge sort by code-point
    order. *)
Definition sorted (l : list string) : list string :=
  merge_sort String.le l.

(** The text does not start with white space. *)
Definition no_leading_space (s : string) : Prop :=
  match s with
  | EmptyString => True
  | String c _ => isspace c = false
  end.

(** [l1 != l2] on lists of strings is the negation of this. *)
Fixpoint list_eqb (l1 l2 : list string) : bool :=
  match l1, l2 with
  | [], [] => true
  | x :: r1, y :: r2 => String.eqb x y && list_eqb r1 r2
  | _, _ => false
  end.

End PyStr.

(** ** Python dictionaries with string keys *)

Definition dict (V : Type) : Type := list (string * V).

Fixpoint dict_get {V} (d : dict V) (k : string) : option V :=
  match d with
  | [] => None
  | (k', v) :: r => if String.eqb k' k then Some v else dict_get r k
  end.

(** [d[k] = v]: overwrite where the key already sits, else append. *)
Fixpoint dict_set {V} (d : dict V) (k : string) (v : V) : dict V :=
  match d with
  | [] => [(k, v)]
  | (k', v') :: r =>
      if String.eqb k' k then (k', v) :: r else (k', v') :: dict_set r k v
  end.

Definition keys {V} (d : dict V) : list string := map fst d.

(** [dict(pairs)] *)
Definition dict_of_pairs {V} (pairs : list (string * V)) : dict V :=
  fold_left (fun acc kv => dict_set acc (fst kv) (snd kv)) pairs [].

(** ** JSON values and the standard decoder *)

#[warnings="-register-all"]
Inductive json : Type :=
| JNull
| JBool (b : bool)
| JInt (n : Z)
| JFloat (lexeme : string)   (* a float literal, NaN, Infinity, -Infinity *)
| JString (s : string)
| JArray (items : list json)
| JObject (members : list (string * json)).

Module Json.

(** Outcome of a scanning function: a value and the unread rest, a
    [JSONDecodeError], or the recursion budget ran out. *)
Inductive scan (A : Type) : Type :=
| Scanned (a : A) (rest : string)
| ScanError
| ScanFuel.
Arguments Scanned {A} a rest.
Arguments ScanError {A}.
Arguments ScanFuel {A}.

Definition scan_map {A B} (f : A -> B) (r : scan A) : scan B :=
  match r with
  | Scanned a rest => Scanned (f a) rest
  | ScanError => ScanError
  | ScanFuel => ScanFuel
  end.

Definition quote : ascii := "034".
Definition backslash : ascii := "092".

(** The decoder's whitespace: space, TAB, LF, CR. *)
Definition is_ws (c : ascii) : bool :=
  Ascii.eqb c " " || Ascii.eqb c "009" || Ascii.eqb c "010" || Ascii.eqb c "013".

Fixpoint skip_ws (s : string) : string :=
  match s with
  | EmptyString => EmptyString
  | String c r => if is_ws c then skip_ws r else s
  end.

Definition is_digit (c : ascii) : bool :=
  let n := N_of_ascii c in ((48 <=? n) && (n <=? 57))%N.

Definition hex_val (c : ascii) : option N :=
  let n := N_of_ascii c in
  if ((48 <=? n) && (n <=? 57))%N then Some (n - 48)%N
  else if ((97 <=? n) && (n <=? 102))%N then Some (n - 87)%N
  else if ((65 <=? n) && (n <=? 70))%N then Some (n - 55)%N
  else None.

Definition hex4 (a b c d : ascii) : option N :=
  match hex_val a, hex_val b, hex_val c, hex_val d with
  | Some x, Some y, Some z, Some w => Some (((x * 16 + y) * 16 + z) * 16 + w)%N
  | _, _, _, _ => None
  end.

(** [chr(cp)] as UTF-8 bytes. *)
Definition utf8 (cp : N) : string :=
  let byte (n : N) := ascii_of_N n in
  (if cp <? 128 then String (byte cp) EmptyString
   else if cp <? 2048 then
     String (byte (192 + cp / 64)) (String (byte (128 + cp mod 64)) EmptyString)
   else if cp <? 65536 then
     String (byte (224 + cp / 4096))
       (String (byte (128 + (cp / 64) mod 64))
          (String (byte (128 + cp mod 64)) EmptyString))
   else
     String (byte (240 + cp / 262144))
       (String (byte (128 + (cp / 4096) mod 64))
          (String (byte (128 + (cp / 64) mod 64))
             (String (byte (128 + cp mod 64)) EmptyString))))%N.

(** The one-character escapes of the decoder's BACKSLASH table. *)
Definition unescape (e : ascii) : option ascii :=
  if Ascii.eqb e quote then Some quote
  else if Ascii.eqb e backslash then Some backslash
  else if Ascii.eqb e "/" then Some "/"%char
  else if Ascii.eqb e "b" then Some "008"%char
  else if Ascii.eqb e "f" then Some "012"%char
  else if Ascii.eqb e "n" then Some "010"%char
  else if Ascii.eqb e "r" then Some "013"%char
  else if Ascii.eqb e "t" then Some "009"%char
  else None.

Definition emit (pre : string) (r : scan string) : scan string :=
  scan_map (String.append pre) r.

Definition is_high_surrogate (u : N) : bool := ((55296 <=? u) && (u <=? 56319))%N.
Definition is_low_surrogate (u : N) : bool := ((56320 <=? u) && (u <=? 57343))%N.

(** [scanstring] in strict mode; [s] starts just after the opening quote. *)
Fixpoint scanstring (s : string) : scan string :=
  match s with
  | EmptyString => ScanError
  | String c r =>
      if Ascii.eqb c quote then Scanned EmptyString r
      else if Ascii.eqb c backslash then
        match r with
        | EmptyString => ScanError
        | String e r1 =>
            if Ascii.eqb e "u" then
              match r1 with
              | String h1 (String h2 (String h3 (String h4 r5))) =>
                  match hex4 h1 h2 h3 h4 with
                  | None => ScanError
                  | Some uni =>
                      match r5 with
                      | String b (String u r7) =>
                          if is_high_surrogate uni && Ascii.eqb b backslash
                             && Ascii.eqb u "u" then
                            match r7 with
                            | String g1 (String g2 (String g3 (String g4 r11))) =>
                                match hex4 g1 g2 g3 g4 with
                                | None => ScanError
                                | Some uni2 =>
                                    if is_low_surrogate uni2 then
                                      emit (utf8 (65536 + (uni - 55296) * 1024
                                                  + (uni2 - 56320))%N)
                                           (scanstring r11)
                                    else emit (utf8 uni) (scanstring r5)
                                end
                            | _ => ScanError
                            end
                          else emit (utf8 uni) (scanstring r5)
                      | _ => emit (utf8 uni) (scanstring r5)
                      end
                  end
              | _ => ScanError
              end
            else
              match unescape e with
              | Some ch => emit (String ch EmptyString) (scanstring r1)
              | None => ScanError
              end
        end
      else if (N_of_ascii c <? 32)%N then ScanError
      else emit (String c EmptyString) (scanstring r)
  end.

(** Longest run of decimal digits at the front, and what follows. *)
Fixpoint digits (s : string) : string * string :=
  match s with
  | EmptyString => (EmptyString, EmptyString)
  | String c r =>
      if is_digit c then let '(d, rest) := digits r in (String c d, rest)
      else (EmptyString, s)
  end.

Fixpoint Z_of_digits (acc : Z) (d : string) : Z :=
  match d with
  | EmptyString => acc
  | String c r => Z_of_digits (acc * 10 + (Z.of_N (N_of_ascii c) - 48)) r
  end.

(** [s[len(p):]] when [s] starts with [p]. *)
Fixpoint strip_prefix (p s : string) : option string :=
  match p, s with
  | EmptyString, _ => Some s
  | String a p', String b s' => if Ascii.eqb a b then strip_prefix p' s' else None
  | String _ _, EmptyString => None
  end.

(** NUMBER_RE: an optional minus sign, then 0 or a non-zero digit and
    digits; an optional fraction (a dot and at least one digit); an
    optional exponent (e or E, an optional sign, at least one digit). *)
Definition match_number (s : string) : option (json * string) :=
  let '(sign, s1) :=
    match s with
    | String c r => if Ascii.eqb c "-" then ("-"%string, r) else (EmptyString, s)
    | EmptyString => (EmptyString, s)
    end in
  let integer :=
    match s1 with
    | String c r =>
        if Ascii.eqb c "0" then Some ("0"%string, r)
        else if is_digit c then let '(d, rest) := digits r in Some (String c d, rest)
        else None
    | EmptyString => None
    end in
  match integer with
  | None => None
  | Some (ip, s2) =>
      let '(frac, s3) :=
        match s2 with
        | String c r =>
            if Ascii.eqb c "." then
              match digits r with
              | (EmptyString, _) => (EmptyString, s2)
              | (d, rest) => (String c d, rest)
              end
            else (EmptyString, s2)
        | EmptyString => (EmptyString, s2)
        end in
      let '(exp, s4) :=
        match s3 with
        | String c r =>
            if Ascii.eqb c "e" || Ascii.eqb c "E" then
              let '(sg, r1) :=
                match r with
                | String c1 r' =>
                    if Ascii.eqb c1 "-" || Ascii.eqb c1 "+"
                    then (String c1 EmptyString, r') else (EmptyString, r)
                | EmptyString => (EmptyString, r)
                end in
              match digits r1 with
              | (EmptyString, _) => (EmptyString, s3)
              | (d, rest) => (String c (sg +:+ d), rest)
              end
            else (EmptyString, s3)
        | EmptyString => (EmptyString, s3)
        end in
      match frac, exp with
      | EmptyString, EmptyString =>
          let n := Z_of_digits 0 ip in
          Some (JInt (if String.eqb sign "-" then - n else n), s4)
      | _, _ => Some (JFloat (sign +:+ ip +:+ frac +:+ exp), s4)
      end
  end.

(** The literals tried around NUMBER_RE, in the scanner's order. *)
Definition scan_atom (s : string) : scan json :=
  match strip_prefix "null" s with
  | Some r => Scanned JNull r
  | None =>
  match strip_prefix "true" s with
  | Some r => Scanned (JBool true) r
  | None =>
  match strip_prefix "false" s with
  | Some r => Scanned (JBool false) r
  | None =>
  match match_number s with
  | Some (v, r) => Scanned v r
  | None =>
  match strip_prefix "NaN" s with
  | Some r => Scanned (JFloat "NaN") r
  | None =>
  match strip_prefix "Infinity" s with
  | Some r => Scanned (JFloat "Infinity") r
  | None =>
  match strip_prefix "-Infinity" s with
  | Some r => Scanned (JFloat "-Infinity") r
  | None => ScanError
  end end end end end end end.

(** [scan_once], [JSONObject]'s pair loop and [JSONArray]'s item loop.
    [object_loop] starts just after the opening quote of a key,
    [array_loop] at the first character of an item. *)
Fixpoint scan_once (fuel : nat) (s : string) : scan json :=
  match fuel with
  | O => ScanFuel
  | S fuel =>
      match s with
      | EmptyString => ScanError
      | String nextchar r =>
          if Ascii.eqb nextchar quote then scan_map JString (scanstring r)
          else if Ascii.eqb nextchar "{" then
            match skip_ws r with
            | String c r1 =>
                if Ascii.eqb c "}" then Scanned (JObject []) r1
                else if Ascii.eqb c quote then object_loop fuel r1 []
                else ScanError
            | EmptyString => ScanError
            end
          else if Ascii.eqb nextchar "[" then
            match skip_ws r with
            | String c r1 =>
                if Ascii.eqb c "]" then Scanned (JArray []) r1
                else array_loop fuel (String c r1) []
            | EmptyString => ScanError
            end
          else scan_atom s
      end
  end
with object_loop (fuel : nat) (s : string) (pairs : list (string * json)) : scan json :=
  match fuel with
  | O => ScanFuel
  | S fuel =>
      match scanstring s with
      | Scanned key r =>
          match skip_ws r with
          | String c r1 =>
              if Ascii.eqb c ":" then
                match scan_once fuel (skip_ws r1) with
                | Scanned value r2 =>
                    let pairs := pairs ++ [(key, value)] in
                    match skip_ws r2 with
                    | String d r3 =>
                        if Ascii.eqb d "}" then Scanned (JObject (dict_of_pairs pairs)) r3
                        else if Ascii.eqb d "," then
                          match skip_ws r3 with
                          | String q r4 =>
                              if Ascii.eqb q quote then object_loop fuel r4 pairs
                              else ScanError
                          | EmptyString => ScanError
                          end
                        else ScanError
                    | EmptyString => ScanError
                    end
                | ScanError => ScanError
                | ScanFuel => ScanFuel
                end
              else ScanError
          | EmptyString => ScanError
          end
      | ScanError => ScanError
      | ScanFuel => ScanFuel
      end
  end
with array_loop (fuel : nat) (s : string) (items : list json) : scan json :=
  match fuel with
  | O => ScanFuel
  | S fuel =>
      match scan_once fuel s with
      | Scanned value r =>
          let items := items ++ [value] in
          match skip_ws r with
          | String d r1 =>
              if Ascii.eqb d "]" then Scanned (JArray items) r1
              else if Ascii.eqb d "," then array_loop fuel (skip_ws r1) items
              else ScanError
          | EmptyString => ScanError
          end
      | ScanError => ScanError
      | ScanFuel => ScanFuel
      end
  end.

(** [json.loads(s)]: one value, white space around it, nothing else.
    [None] is [JSONDecodeError]. *)
Definition loads (s : string) : option json :=
  if String.prefix (utf8 65279) s then None
  else
    match scan_once (S (2 * String.length s)) (skip_ws s) with
    | Scanned v rest =>
        match skip_ws rest with
        | EmptyString => Some v
        | String _ _ => None
        end
    | ScanError => None
    | ScanFuel => None
    end.

End Json.

Definition json_loads : string -> option json := Json.loads.

(** ** The regular expression of the response parser *)

Module Re.

(** [.*\}] anchored at the front of [s], with DOTALL: the greedy star first
    tries to take one more character, and only when the rest cannot be
    matched does it stop and ask for the closing brace here. *)
Fixpoint dotstar_close (s : string) : option string :=
  match s with
  | EmptyString => None
  | String c r =>
      match dotstar_close r with
      | Some m => Some (String c m)
      | None => if Ascii.eqb c "}" then Some (String c EmptyString) else None
      end
  end.

(** [\{.*\}] anchored at the front of [s]. *)
Definition match_here (s : string) : option string :=
  match s with
  | String c r =>
      if Ascii.eqb c "{" then option_map (String c) (dotstar_close r) else None
  | EmptyString => None
  end.

(** [re.search(r'\{.*\}', s, re.DOTALL)], giving [group(0)]: the match at
    the leftmost position that has one. *)
Fixpoint search (s : string) : option string :=
  match match_here s with
  | Some m => Some m
  | None =>
      match s with
      | EmptyString => None
      | String _ r => search r
      end
  end.

End Re.

(** ** Field Name Mapping *)

Definition field_name_mapping : dict string :=
  [ ("INVOICE NO.", "INVOICE_NO");
    ("DATE", "INVOICE_DATE");
    ("PO#", "PO_NUMBER");
    ("MERCHANDISE NET", "MERCHANDISE_NET");
    ("FREIGHT CHARGE", "FREIGHT_CHARGE");
    ("SMALL ORDER FEE", "SMALL_ORDER_FEE");
    ("INVOICE TOTAL", "INVOICE_TOTAL") ].

(** [field_name_mapping.get(key.strip().upper(), key.strip().upper())] *)
Definition normalized_key (key : string) : string :=
  let k := PyStr.upper (PyStr.strip key) in
  match dict_get field_name_mapping k with
  | Some canonical => canonical
  | None => k
  end.

Definition record : Type := dict json.

Definition normalize_field_names (data_dict : record) : record :=
  fold_left (fun normalized_dict kv => dict_set normalized_dict (normalized_key (fst kv)) (snd kv))
            data_dict [].

(** ** Exceptions, the outside world and the effect monad *)

Inductive exn : Type :=
| PDFError                  (* convert_from_path raised *)
| IndexError                (* images[0] on an empty list *)
| APIError                  (* client.chat.completions.create raised *)
| FileNotFoundError (path : string)
| JSONDecodeError
| AttributeError            (* .items() on a value that is no dict *)
| ValueError (msg : string).

(** What the page shows, message by message. *)
Inductive ui_event : Type :=
| Found (n : nat)
| NoPDFFiles
| Processing (pdf_file : string)
| Failed
| Progress (done total : nat)
| AllProcessed
| NoDataExtracted
| UsingCached
| Complete
| ParseWarning (pdf_file : string) (attempt_no : Z)
| ResponseText (response_text : string)
| AttemptWarning (pdf_file : string) (attempt_no : Z) (e : exn)
| Retrying (pdf_file : string) (retry_delay : Z)
| AllRetriesFailed (pdf_file : string).

(** What the collaborators do on one attempt at one document:
    [pages] is the outcome of [convert_from_path] ([None]: it raises;
    otherwise the page images it wrote to the output folder, by file name);
    [reply] is the outcome of the model call, should the attempt get that far
    ([None]: it raises; otherwise [response.choices[0].message.content]). *)
Record attempt_world : Type := {
  pages : option (list string);
  reply : option string
}.

Record uploaded_file : Type := {
  name : string;
  external : nat -> attempt_world   (* by attempt, counted from 0 *)
}.

Record env : Type := {
  fs : gset string;        (* the files in temp_dir *)
  raster_calls : nat;      (* calls of convert_from_path *)
  model_calls : nat;       (* calls of client.chat.completions.create *)
  slept : Z;               (* seconds spent in time.sleep *)
  ui : list ui_event       (* messages shown, oldest first *)
}.

Definition env0 : env :=
  {| fs := ∅; raster_calls := 0; model_calls := 0; slept := 0; ui := [] |}.

Definition set_fs (f : gset string -> gset string) (st : env) : env :=
  {| fs := f (fs st); raster_calls := raster_calls st; model_calls := model_calls st;
     slept := slept st; ui := ui st |}.

Inductive outcome (A : Type) : Type :=
| Return (a : A)
| Raise (e : exn).
Arguments Return {A} a.
Arguments Raise {A} e.

Definition M (A : Type) : Type := env -> outcome A * env.

Definition ret {A} (a : A) : M A := fun st => (Return a, st).
Definition raise {A} (e : exn) : M A := fun st => (Raise e, st).

(** A computation without effects. *)
Definition lift {A} (r : outcome A) : M A := fun st => (r, st).

Definition bind {A B} (m : M A) (k : A -> M B) : M B :=
  fun st =>
    match m st with
    | (Return a, st') => k a st'
    | (Raise e, st') => (Raise e, st')
    end.

(** [try: m  except <those e with handler e = Some h>: h] *)
Definition try_except {A} (m : M A) (handler : exn -> option (M A)) : M A :=
  fun st =>
    match m st with
    | (Return a, st') => (Return a, st')
    | (Raise e, st') =>
        match handler e with
        | Some h => h st'
        | None => (Raise e, st')
        end
    end.

(** The monad notations [x ← m; k] and [m;; k] below are these. *)
#[global] Instance M_bind : MBind M := fun A B k m => bind m k.
#[global] Instance M_ret : MRet M := fun A a => ret a.

Definition show (ev : ui_event) : M unit :=
  fun st =>
    (Return tt,
     {| fs := fs st; raster_calls := raster_calls st; model_calls := model_calls st;
        slept := slept st; ui := ui st ++ [ev] |}).

Definition time_sleep (seconds : Z) : M unit :=
  fun st =>
    (Return tt,
     {| fs := fs st; raster_calls := raster_calls st; model_calls := model_calls st;
        slept := slept st + seconds; ui := ui st |}).

(** Writing a file in temp_dir (open(..., "wb"), image.save). *)
Definition write_file (path : string) : M unit :=
  fun st => (Return tt, set_fs (fun files => {[path]} ∪ files) st).

(** [open(path, "rb")] and read. *)
Definition read_file (path : string) : M unit :=
  fun st =>
    if bool_decide (path ∈ fs st) then (Return tt, st)
    else (Raise (FileNotFoundError path), st).

(** [os.remove(path)] *)
Definition os_remove (path : string) : M unit :=
  fun st =>
    if bool_decide (path ∈ fs st) then (Return tt, set_fs (fun files => files ∖ {[path]}) st)
    else (Raise (FileNotFoundError path), st).

(** [convert_from_path(pdf_path, first_page=1, last_page=1, fmt='png',
    output_folder=temp_dir)] *)
Definition convert_from_path (w : attempt_world) : M (list string) :=
  fun st =>
    let st1 :=
      {| fs := fs st; raster_calls := S (raster_calls st); model_calls := model_calls st;
         slept := slept st; ui := ui st |} in
    match pages w with
    | None => (Raise PDFError, st1)
    | Some images => (Return images, set_fs (fun files => list_to_set images ∪ files) st1)
    end.

(** [client.chat.completions.create(...)] down to the reply's text. *)
Definition chat_completions_create (w : attempt_world) : M string :=
  fun st =>
    let st1 :=
      {| fs := fs st; raster_calls := raster_calls st; model_calls := S (model_calls st);
         slept := slept st; ui := ui st |} in
    match reply w with
    | None => (Raise APIError, st1)
    | Some response_text => (Return response_text, st1)
    end.

(** [tempfile.TemporaryDirectory()] as a context manager: a fresh empty
    directory for the body, removed with all it holds when the body is left,
    by return or by exception. *)
Definition with_temporary_directory {A} (body : M A) : M A :=
  fun st =>
    let '(r, st') := body (set_fs (fun _ => ∅) st) in
    (r, set_fs (fun _ => ∅) st').

(** ** process_pdf *)

Definition temp_image_name (pdf_file : string) : string :=
  "temp_" +:+ pdf_file +:+ ".png".

(** Lines 132-137: find the object in the reply and decode it. *)
Definition extract_json (response_text : string) : outcome json :=
  match Re.search response_text with
  | Some json_str =>
      match json_loads json_str with
      | Some extracted_data => Return extracted_data
      | None => Raise JSONDecodeError
      end
  | None => Raise (ValueError "No JSON found in the response")
  end.

Definition items (v : json) : M record :=
  match v with
  | JObject d => ret d
  | _ => raise AttributeError
  end.

(** Lines 131-152, the inner [try] with its handler. *)
Definition parse_response (pdf_file : string) (attempt : Z) (image_path response_text : string)
  : M record :=
  try_except
    (extracted_data ← lift (extract_json response_text);
     data_dict ← items extracted_data;
     let extracted_data := normalize_field_names data_dict in
     let extracted_data := dict_set extracted_data "pdf_file" (JString pdf_file) in
     os_remove image_path;;
     ret extracted_data)
    (fun e =>
       match e with
       | JSONDecodeError =>
           Some (show (ParseWarning pdf_file (attempt + 1));;
                 show (ResponseText response_text);;
                 raise (ValueError "JSON parsing failed"))
       | _ => None
       end).

(** Lines 83-152: the body of the outer [try]. *)
Definition attempt_body (w : attempt_world) (pdf_file : string) (attempt : Z) : M record :=
  images ← convert_from_path w;
  match images with
  | [] => raise IndexError
  | image :: _ =>
      let image_path := temp_image_name pdf_file in
      write_file image_path;;
      read_file image_path;;
      response_text ← chat_completions_create w;
      parse_response pdf_file attempt image_path response_text
  end.

(** The [for attempt in range(max_retries)] loop from iteration [attempt]
    on, with [remaining] iterations left in the range. *)
Fixpoint process_pdf_from (W : nat -> attempt_world) (pdf_file : string)
    (max_retries retry_delay : Z) (remaining attempt : nat) : M (option record) :=
  match remaining with
  | O => ret None
  | S remaining =>
      try_except
        (extracted_data ← attempt_body (W attempt) pdf_file (Z.of_nat attempt);
         ret (Some extracted_data))
        (fun e =>
           Some (show (AttemptWarning pdf_file (Z.of_nat attempt + 1) e);;
                 if Z.of_nat attempt <? max_retries - 1 then
                   show (Retrying pdf_file retry_delay);;
                   time_sleep retry_delay;;
                   process_pdf_from W pdf_file max_retries retry_delay remaining (S attempt)
                 else
                   show (AllRetriesFailed pdf_file);;
                   ret None))
  end.

Definition process_pdf (W : nat -> attempt_world) (pdf_file : string)
    (max_retries retry_delay : Z) : M (option record) :=
  process_pdf_from W pdf_file max_retries retry_delay (Z.to_nat max_retries) 0.

(** The defaults of [def process_pdf(pdf_file, max_retries=3, retry_delay=5)]. *)
Definition default_max_retries : Z := 3.
Definition default_retry_delay : Z := 5.

(** ** The batch loop (lines 163-177) *)

(** [for idx, pdf_file in enumerate(pdf_files)], with [data] so far. *)
Fixpoint process_files (files : list uploaded_file) (idx total_files : nat)
    (data : list record) : M (list record) :=
  match files with
  | [] => ret data
  | file :: rest =>
      let pdf_file := name file in
      show (Processing pdf_file);;
      result ← process_pdf (external file) pdf_file default_max_retries default_retry_delay;
      data ← match result with
             | Some extracted_data => ret (data ++ [extracted_data])
             | None => show Failed;; ret data
             end;
      show (Progress (S idx) total_files);;
      process_files rest (S idx) total_files data
  end.

(** Lines 48-53: the uploads are copied into temp_dir. *)
Fixpoint save_uploads (uploaded_files : list uploaded_file) (pdf_files : list string)
  : M (list string) :=
  match uploaded_files with
  | [] => ret pdf_files
  | file :: rest =>
      write_file (name file);;
      save_uploads rest (pdf_files ++ [name file])
  end.

(** ** The table (pandas) *)

(** A frame of object cells; [None] is a missing value (NaN), shown as an
    empty cell. *)
Record DataFrame : Type := {
  columns : list string;
  rows : list (list (option json))
}.

Definition columns_order : list string :=
  [ "INVOICE_NO"; "INVOICE_DATE"; "PO_NUMBER"; "MERCHANDISE_NET"; "FREIGHT_CHARGE";
    "SMALL_ORDER_FEE"; "INVOICE_TOTAL"; "pdf_file" ].

Definition mem (k : string) (l : list string) : bool :=
  existsb (String.eqb k) l.

(** The column labels of [pd.DataFrame(data)]: every key of every record, in
    order of first appearance. *)
Definition add_labels (cols : list string) (r : record) : list string :=
  fold_left (fun cs k => if mem k cs then cs else cs ++ [k]) (keys r) cols.

Definition frame_columns (data : list record) : list string :=
  fold_left add_labels data [].

(** [pd.DataFrame(data)] for a list of dicts. *)
Definition pd_DataFrame (data : list record) : DataFrame :=
  let cols := frame_columns data in
  {| columns := cols; rows := map (fun r => map (dict_get r) cols) data |}.

Fixpoint index_of (k : string) (l : list string) : option nat :=
  match l with
  | [] => None
  | x :: r => if String.eqb x k then Some 0%nat else option_map S (index_of k r)
  end.

(** The cell of [row] under the label [c], missing when the frame has no
    such column. *)
Definition cell (df : DataFrame) (row : list (option json)) (c : string) : option json :=
  match index_of c (columns df) with
  | Some i => mjoin (row !! i)
  | None => None
  end.

(** [df.reindex(columns=cols)] *)
Definition reindex (df : DataFrame) (cols : list string) : DataFrame :=
  {| columns := cols; rows := map (fun row => map (cell df row) cols) (rows df) |}.

(** Lines 195-197: the frame behind the CSV download and [st.dataframe]. *)
Definition make_table (data : list record) : DataFrame :=
  reindex (pd_DataFrame data) columns_order.

(** ** One run of the script (lines 38-210) *)

Record session_state : Type := {
  data : option (list record);           (* st.session_state.data *)
  uploaded_file_names : list string      (* st.session_state.uploaded_file_names *)
}.

(** Lines 12-17. *)
Definition initial_session : session_state :=
  {| data := None; uploaded_file_names := [] |}.

(** [x is None] *)
Definition is_none {A} (x : option A) : bool :=
  match x with
  | None => true
  | Some _ => false
  end.

(** Lines 39-43: the cache key and the invalidation test. *)
Definition refresh_cache (uploaded_files : list uploaded_file) (ss : session_state)
  : session_state :=
  let current_uploaded_file_names := PyStr.sorted (map name uploaded_files) in
  if is_none (data ss)
     || negb (PyStr.list_eqb (uploaded_file_names ss) current_uploaded_file_names)
  then {| data := None; uploaded_file_names := current_uploaded_file_names |}
  else ss.

(** Lines 46-188: the body run when nothing is cached. *)
Definition process_batch (uploaded_files : list uploaded_file) (ss : session_state)
  : M session_state :=
  with_temporary_directory
    (pdf_files ← save_uploads uploaded_files [];
     show (Found (length pdf_files));;
     (match pdf_files with [] => show NoPDFFiles | _ :: _ => ret tt end);;
     records ← process_files uploaded_files 0 (length pdf_files) [];
     show AllProcessed;;
     match records with
     | _ :: _ => ret {| data := Some records; uploaded_file_names := uploaded_file_names ss |}
     | [] => show NoDataExtracted;; ret ss
     end).

(** Lines 38-210.  The result is the session state left behind and the
    table offered for download, if there is one. *)
Definition run_script (uploaded_files : list uploaded_file) (ss : session_state)
  : M (session_state * option DataFrame) :=
  match uploaded_files with
  | [] => ret (ss, None)
  | _ :: _ =>
      let ss := refresh_cache uploaded_files ss in
      ss ← match data ss with
           | None => process_batch uploaded_files ss
           | Some _ => show UsingCached;; ret ss
           end;
      match data ss with
      | Some (r :: rs) => show Complete;; ret (ss, Some (make_table (r :: rs)))
      | _ => show NoDataExtracted;; ret (ss, None)
      end
  end.

(** ** Vocabulary of the statements *)

(** An input entry with its key renamed. *)
Definition normalize_entry (kv : string * json) : string * json :=
  (normalized_key (fst kv), snd kv).

(** Does the character occur in the text? *)
Fixpoint occurs (c : ascii) (s : string) : bool :=
  match s with
  | EmptyString => false
  | String c' r => Ascii.eqb c' c || occurs c r
  end.

(** The text has an opening brace with a closing brace somewhere after it. *)
Definition brace_pair (text : string) : Prop :=
  exists a b c, text = a +:+ "{" +:+ b +:+ "}" +:+ c.

(** All substrings of a text, by start and length. *)
Definition substrings (text : string) : list string :=
  flat_map (fun i => map (fun n => String.substring i (S n) text)
                         (seq 0 (String.length text - i)))
           (seq 0 (String.length text)).

Definition is_object (o : option json) : bool :=
  match o with
  | Some (JObject _) => true
  | _ => false
  end.

Definition last_char (s : string) : option ascii :=
  String.get (String.length s - 1) s.

(** The substrings of a text that are well-formed JSON objects, from their
    opening brace to their closing brace. *)
Definition object_substrings (text : string) : list string :=
  filter (fun s => String.prefix "{" s
                   && bool_decide (last_char s = Some "}"%char)
                   && is_object (json_loads s))
         (substrings text).

(** A double quote, for writing JSON texts. *)
Definition dq : string := String Json.quote EmptyString.

(** The record an attempt returns for a decoded object. *)
Definition tagged (pdf_file : string) (d : record) : record :=
  dict_set (normalize_field_names d) "pdf_file" (JString pdf_file).

(** How one attempt ends, as a function of what the collaborators do:
    with a record, or with the exception that reaches the outer handler. *)
Definition attempt_outcome (w : attempt_world) (pdf_file : string) : outcome record :=
  match pages w with
  | None => Raise PDFError
  | Some [] => Raise IndexError
  | Some (_ :: _) =>
      match reply w with
      | None => Raise APIError
      | Some response_text =>
          match extract_json response_text with
          | Return (JObject d) => Return (tagged pdf_file d)
          | Return _ => Raise AttributeError
          | Raise JSONDecodeError => Raise (ValueError "JSON parsing failed")
          | Raise e => Raise e
          end
      end
  end.

(** Rasterisation yields a page, so the attempt goes on to call the model. *)
Definition reaches_model (w : attempt_world) : bool :=
  match pages w with
  | Some (_ :: _) => true
  | _ => false
  end.

(** The files of temp_dir after one attempt. *)
Definition attempt_files (w : attempt_world) (pdf_file : string) (files : gset string)
  : gset string :=
  match pages w with
  | None => files
  | Some images =>
      if reaches_model w then
        let saved := {[temp_image_name pdf_file]} ∪ (list_to_set images ∪ files) in
        match attempt_outcome w pdf_file with
        | Return _ => saved ∖ {[temp_image_name pdf_file]}
        | Raise _ => saved
        end
      else list_to_set images ∪ files
  end.

(** The attempts the retry loop runs, by number, when [remaining]
    iterations are left from [attempt] on: it stops at the first attempt
    that returns a record. *)
Fixpoint attempts_run (W : nat -> attempt_world) (pdf_file : string)
    (remaining attempt : nat) : list nat :=
  match remaining with
  | O => []
  | S remaining =>
      attempt ::
      match attempt_outcome (W attempt) pdf_file with
      | Return _ => []
      | Raise _ => attempts_run W pdf_file remaining (S attempt)
      end
  end.

(** The record of the first attempt that returns one, if any does. *)
Fixpoint first_success (W : nat -> attempt_world) (pdf_file : string)
    (remaining attempt : nat) : option record :=
  match remaining with
  | O => None
  | S remaining =>
      match attempt_outcome (W attempt) pdf_file with
      | Return extracted_data => Some extracted_data
      | Raise _ => first_success W pdf_file remaining (S attempt)
      end
  end.

(** The model fails on an attempt: it is called, and the call raises or its
    reply has no JSON object that can be found and decoded. *)
Definition model_fails (w : attempt_world) : Prop :=
  reaches_model w = true /\
  (reply w = None \/
   exists response_text, reply w = Some response_text /\
                         forall v, extract_json response_text <> Return v).

(** The model succeeds on an attempt, with the object [d] in its reply. *)
Definition model_succeeds (w : attempt_world) (d : record) : Prop :=
  reaches_model w = true /\
  exists response_text, reply w = Some response_text /\
                        extract_json response_text = Return (JObject d).

(** Rasterisation fails on an attempt: pdf2image raises, or there is no page. *)
Definition rasterization_fails (w : attempt_world) : Prop :=
  pages w = None \/ pages w = Some [].

(** How many of the given attempts call the model. *)
Definition model_calls_of (W : nat -> attempt_world) (attempts : list nat) : nat :=
  length (List.filter (fun i => reaches_model (W i)) attempts).

(** The files of temp_dir after the given attempts, in turn. *)
Definition files_after (W : nat -> attempt_world) (pdf_file : string)
    (attempts : list nat) (files : gset string) : gset string :=
  fold_left (fun files i => attempt_files (W i) pdf_file files) attempts files.

(** The reply of the end-to-end scenario. *)
Definition inv1_reply : string :=
  "Here is the data: {" +:+ dq +:+ "INVOICE NO." +:+ dq +:+ ": " +:+ dq +:+ "A100" +:+ dq
  +:+ ", " +:+ dq +:+ "DATE" +:+ dq +:+ ": " +:+ dq +:+ "2024-01-05" +:+ dq
  +:+ ", " +:+ dq +:+ "INVOICE TOTAL" +:+ dq +:+ ": " +:+ dq +:+ "250.00" +:+ dq +:+ "}".

(** Collaborators for examples: a model that raises on the first [k]
    attempts and then sends [inv1_reply]; a model that always raises; a PDF
    that cannot be rasterised. *)
Definition flaky_model (k : nat) (attempt : nat) : attempt_world :=
  {| pages := Some ["page-1.png"];
     reply := if (attempt <? k)%nat then None else Some inv1_reply |}.

Definition dead_model (attempt : nat) : attempt_world :=
  {| pages := Some ["page-1.png"]; reply := None |}.

Definition broken_pdf (attempt : nat) : attempt_world :=
  {| pages := None; reply := Some inv1_reply |}.

(** What [process_pdf], with its default arguments, returns for a document. *)
Definition document_result (file : uploaded_file) : option record :=
  first_success (external file) (name file) (Z.to_nat default_max_retries) 0.

(** The attempts made on a document. *)
Definition attempts_of (file : uploaded_file) : list nat :=
  attempts_run (external file) (name file) (Z.to_nat default_max_retries) 0.

Definition raises {A} (r : outcome A) : bool :=
  match r with
  | Raise _ => true
  | Return _ => false
  end.

(** Every one of the default three attempts on the document raises. *)
Definition fails_all_retries (file : uploaded_file) : bool :=
  forallb (fun i => raises (attempt_outcome (external file i) (name file)))
          (seq 0 (Z.to_nat default_max_retries)).

(** The records of a batch: one per document with a result, in upload order. *)
Definition batch_records (files : list uploaded_file) : list record :=
  omap document_result files.

Fixpoint sum_list (l : list nat) : nat :=
  match l with
  | [] => O
  | x :: r => (x + sum_list r)%nat
  end.

(** What a batch leaves in the session. *)
Definition session_after (ss : session_state) (records : list record) : session_state :=
  match records with
  | [] => ss
  | _ :: _ => {| data := Some records; uploaded_file_names := uploaded_file_names ss |}
  end.

(** The number of rasteriser and model calls a batch makes. *)
Definition batch_raster_calls (files : list uploaded_file) : nat :=
  sum_list (map (fun f => length (attempts_of f)) files).

Definition batch_model_calls (files : list uploaded_file) : nat :=
  sum_list (map (fun f => model_calls_of (external f) (attempts_of f)) files).


(** The session never holds an empty list of records: [data] is [None] or
    a non-empty list. *)
Definition session_ok (ss : session_state) : Prop := data ss <> Some [].

(** Uploads for examples. *)
Definition scan_pdf : uploaded_file := {| name := "scan.pdf"; external := dead_model |}.

(** The upload, the record and the table of the end-to-end scenario. *)
Definition inv1_pdf : uploaded_file := {| name := "inv1.pdf"; external := flaky_model 0 |}.

Definition inv1_record : record :=
  [ ("INVOICE_NO", JString "A100"); ("INVOICE_DATE", JString "2024-01-05");
    ("INVOICE_TOTAL", JString "250.00"); ("pdf_file", JString "inv1.pdf") ].

Definition inv1_table : DataFrame :=
  {| columns := [ "INVOICE_NO"; "INVOICE_DATE"; "PO_NUMBER"; "MERCHANDISE_NET";
                  "FREIGHT_CHARGE"; "SMALL_ORDER_FEE"; "INVOICE_TOTAL"; "pdf_file" ];
     rows := [ [ Some (JString "A100"); Some (JString "2024-01-05"); None; None; None; None;
                 Some (JString "250.00"); Some (JString "inv1.pdf") ] ] |}.

(** ** Further vocabulary *)

(** The text is made of white space only. *)
Fixpoint all_space (s : string) : bool :=
  match s with
  | EmptyString => true
  | String c r => PyStr.isspace c && all_space r
  end.

(** The members of a list in order of first appearance. *)
Definition first_seen (l : list string) : list string :=
  fold_left (fun seen k => if mem k seen then seen else seen ++ [k]) l [].

(** On this attempt the model is called and answers [response_text], in
    which a brace-to-brace span is found that the decoder refuses. *)
Definition decode_fails (w : attempt_world) (response_text : string) : Prop :=
  reaches_model w = true /\
  reply w = Some response_text /\
  exists json_str, Re.search response_text = Some json_str /\ json_loads json_str = None.

(** The messages of [process_pdf]: warnings, retries and the final error. *)
Definition attempt_level (ev : ui_event) : bool :=
  match ev with
  | ParseWarning _ _ | ResponseText _ | AttemptWarning _ _ _ | Retrying _ _
  | AllRetriesFailed _ => true
  | _ => false
  end.

(** The messages of the batch loop: the status line and the progress bar. *)
Definition is_status (ev : ui_event) : bool :=
  match ev with
  | Processing _ | Failed | Progress _ _ => true
  | _ => false
  end.

(** The status line and progress bar over a batch, from position [idx]. *)
Fixpoint status_events (files : list uploaded_file) (idx total_files : nat)
  : list ui_event :=
  match files with
  | [] => []
  | file :: rest =>
      Processing (name file)
      :: (if fails_all_retries file then [Failed] else [])
      ++ Progress (S idx) total_files :: status_events rest (S idx) total_files
  end.

Definition is_failed (ev : ui_event) : bool :=
  match ev with
  | Failed => true
  | _ => false
  end.



(** Every record of the session carries the name of one of the uploads the
    session is keyed by. *)
Definition session_consistent (ss : session_state) : Prop :=
  forall records r,
    data ss = Some records -> r ∈ records ->
    exists n, n ∈ uploaded_file_names ss /\ dict_get r "pdf_file" = Some (JString n).

(** * Properties *)

(** ** Text primitives *)

Module PyStrFacts.
Import PyStr.

Lemma upper_char_idem c : upper_char (upper_char c) = upper_char c.
Proof. destruct c as [[] [] [] [] [] [] [] []]; reflexivity. Qed.

Lemma isspace_upper_char c : isspace (upper_char c) = isspace c.
Proof. destruct c as [[] [] [] [] [] [] [] []]; reflexivity. Qed.

Lemma upper_idem s : upper (upper s) = upper s.
Proof. induction s as [|c r IH]; simpl; [done|]. by rewrite upper_char_idem, IH. Qed.

Lemma lstrip_upper s : lstrip (upper s) = upper (lstrip s).
Proof.
  induction s as [|c r IH]; simpl; [done|].
  rewrite isspace_upper_char. by destruct (isspace c).
Qed.

Lemma rstrip_upper s : rstrip (upper s) = upper (rstrip s).
Proof.
  induction s as [|c r IH]; simpl; [done|].
  rewrite IH, isspace_upper_char.
  destruct (rstrip r) as [|c' r'] eqn:E; simpl; [|done].
  by destruct (isspace c).
Qed.

Lemma strip_upper s : strip (upper s) = upper (strip s).
Proof. unfold strip. by rewrite lstrip_upper, rstrip_upper. Qed.

Lemma rstrip_idem s : rstrip (rstrip s) = rstrip s.
Proof.
  induction s as [|c r IH]; simpl; [done|].
  destruct (rstrip r) as [|c' r'] eqn:E.
  - destruct (isspace c) eqn:Hc; simpl; [done|]. by rewrite Hc.
  - change (rstrip (String c (String c' r')) = String c (String c' r')).
    cbn [rstrip]. cbn [rstrip] in IH. by rewrite IH.
Qed.

Lemma lstrip_no_leading_space s : no_leading_space (lstrip s).
Proof.
  induction s as [|c r IH]; simpl; [done|].
  destruct (isspace c) eqn:Hc; [done|]. exact Hc.
Qed.

Lemma lstrip_fixed s : no_leading_space s -> lstrip s = s.
Proof. destruct s as [|c r]; simpl; [done|]. by intros ->. Qed.

Lemma rstrip_no_leading_space s : no_leading_space s -> no_leading_space (rstrip s).
Proof.
  destruct s as [|c r]; simpl; [done|]. intros Hc.
  destruct (rstrip r); simpl; [by rewrite Hc|done].
Qed.

Lemma strip_idem s : strip (strip s) = strip s.
Proof.
  unfold strip.
  rewrite (lstrip_fixed (rstrip (lstrip s))).
  - apply rstrip_idem.
  - apply rstrip_no_leading_space, lstrip_no_leading_space.
Qed.

(** The key the normaliser looks up is a fixed point of [strip] and [upper]. *)
Lemma upper_strip_fixed s : upper (strip (upper (strip s))) = upper (strip s).
Proof. by rewrite strip_upper, strip_idem, upper_idem. Qed.

End PyStrFacts.

(** ** Dictionaries *)

Section DictFacts.
Context {V : Type}.
Implicit Types (d : dict V) (k : string) (v : V).

Lemma dict_set_fresh d k v : k ∉ keys d -> dict_set d k v = d ++ [(k, v)].
Proof.
  induction d as [|[k' v'] r IH]; simpl; [done|]. intros Hk.
  destruct (String.eqb_spec k' k) as [->|Hne].
  - exfalso. apply Hk. left.
  - f_equal. apply IH. intros Hin. apply Hk. by right.
Qed.

Lemma dict_set_keys_in d k v : k ∈ keys d -> keys (dict_set d k v) = keys d.
Proof.
  induction d as [|[k' v'] r IH]; simpl; [by intros ?%elem_of_nil|]. intros Hk.
  destruct (String.eqb_spec k' k) as [->|Hne]; simpl; [done|].
  f_equal. apply IH. apply elem_of_cons in Hk as [->|Hk]; [done|exact Hk].
Qed.

Lemma dict_set_length_in d k v : k ∈ keys d -> length (dict_set d k v) = length d.
Proof.
  intros Hk. rewrite <- (length_map fst (dict_set d k v)), <- (length_map fst d).
  fold (keys (dict_set d k v)). fold (keys d). by rewrite dict_set_keys_in.
Qed.

Lemma dict_set_keys d k v :
  keys (dict_set d k v) = if decide (k ∈ keys d) then keys d else keys d ++ [k].
Proof.
  destruct (decide (k ∈ keys d)) as [Hin|Hout].
  - by apply dict_set_keys_in.
  - rewrite dict_set_fresh by done. unfold keys. by rewrite map_app.
Qed.

Lemma dict_set_NoDup d k v : NoDup (keys d) -> NoDup (keys (dict_set d k v)).
Proof.
  intros Hd. rewrite dict_set_keys. case_decide; [done|].
  apply NoDup_app. split_and!; [done| |apply NoDup_singleton].
  intros x Hx ->%list_elem_of_singleton. done.
Qed.

Lemma dict_set_length_le d k v : (length (dict_set d k v) <= S (length d))%nat.
Proof.
  destruct (decide (k ∈ keys d)) as [Hin|Hout].
  - rewrite dict_set_length_in by done. lia.
  - rewrite dict_set_fresh by done. rewrite length_app. simpl. lia.
Qed.

Lemma dict_get_set d k v k' :
  dict_get (dict_set d k v) k' = if String.eqb k k' then Some v else dict_get d k'.
Proof.
  induction d as [|[k0 v0] r IH]; simpl.
  - done.
  - destruct (String.eqb_spec k0 k) as [->|Hne]; simpl.
    + by destruct (String.eqb k k').
    + rewrite IH. destruct (String.eqb_spec k0 k') as [->|Hne'].
      * destruct (String.eqb_spec k k') as [->|]; [done|done].
      * done.
Qed.

Lemma dict_get_None d k : dict_get d k = None <-> k ∉ keys d.
Proof.
  induction d as [|[k0 v0] r IH]; simpl.
  - split; [intros _ ?%elem_of_nil; done|done].
  - destruct (String.eqb_spec k0 k) as [->|Hne].
    + split; [done|]. intros H. exfalso. apply H. left.
    + rewrite IH, not_elem_of_cons. split; [by split|by intros [_ ?]].
Qed.

Lemma dict_get_app d1 d2 k :
  dict_get (d1 ++ d2) k =
  match dict_get d1 k with Some v => Some v | None => dict_get d2 k end.
Proof.
  induction d1 as [|[k0 v0] r IH]; simpl; [done|].
  by destruct (String.eqb k0 k).
Qed.

End DictFacts.

(** ** Field Normalizer *)

Section NormalizerFacts.
Import PyStr PyStrFacts.

Local Abbreviation step :=
  (fun (normalized_dict : record) (kv : string * json) =>
     dict_set normalized_dict (normalized_key (fst kv)) (snd kv)).

(** The canonical names are not themselves raw names of the table. *)
Lemma normalized_key_canonical k c :
  dict_get field_name_mapping k = Some c -> normalized_key c = c.
Proof.
  unfold field_name_mapping. cbn [dict_get].
  repeat (destruct (String.eqb _ k); [intros [= <-]; reflexivity|]).
  discriminate.
Qed.

Lemma normalized_key_idem k : normalized_key (normalized_key k) = normalized_key k.
Proof.
  unfold normalized_key at 2 3.
  destruct (dict_get field_name_mapping (upper (strip k))) as [c|] eqn:E.
  - by apply normalized_key_canonical with (k := upper (strip k)).
  - unfold normalized_key. by rewrite upper_strip_fixed, E.
Qed.

Lemma normalize_fold_NoDup d acc :
  NoDup (keys acc) -> NoDup (keys (fold_left step d acc)).
Proof.
  revert acc. induction d as [|[k v] r IH]; intros acc Hacc; simpl; [done|].
  apply IH. by apply dict_set_NoDup.
Qed.

Lemma normalize_fold_length d acc :
  (length (fold_left step d acc) <= length acc + length d)%nat.
Proof.
  revert acc. induction d as [|[k v] r IH]; intros acc; simpl; [lia|].
  specialize (IH (dict_set acc (normalized_key k) v)).
  pose proof (dict_set_length_le acc (normalized_key k) v). lia.
Qed.

Lemma dict_set_keys_mono {V} (d : dict V) k v k' : k' ∈ keys d -> k' ∈ keys (dict_set d k v).
Proof.
  rewrite dict_set_keys. case_decide; [done|]. intros Hin. apply elem_of_app. by left.
Qed.

Lemma dict_set_keys_new {V} (d : dict V) k v : k ∈ keys (dict_set d k v).
Proof.
  rewrite dict_set_keys. case_decide; [done|]. apply elem_of_app. right. left.
Qed.

Lemma normalize_fold_keys_mono d acc k :
  k ∈ keys acc -> k ∈ keys (fold_left step d acc).
Proof.
  revert acc. induction d as [|[k0 v0] r IH]; intros acc Hk; simpl; [done|].
  apply IH. by apply dict_set_keys_mono.
Qed.

Lemma normalize_fold_keys_in d acc k :
  k ∈ keys d -> normalized_key k ∈ keys (fold_left step d acc).
Proof.
  revert acc. induction d as [|[k0 v0] r IH]; intros acc Hk; simpl.
  - by apply elem_of_nil in Hk.
  - simpl in Hk. apply elem_of_cons in Hk as [->|Hk].
    + apply normalize_fold_keys_mono, dict_set_keys_new.
    + by apply IH.
Qed.

Lemma normalize_fold_distinct d acc :
  NoDup (keys acc ++ map normalized_key (keys d)) ->
  fold_left step d acc = acc ++ map normalize_entry d.
Proof.
  revert acc. induction d as [|[k v] r IH]; intros acc Hnd; simpl.
  - by rewrite app_nil_r.
  - simpl in Hnd.
    assert (Hfresh : normalized_key k ∉ keys acc).
    { apply NoDup_app in Hnd as (_ & Hdisj & _). intros Hin.
      apply (Hdisj _ Hin). left. }
    rewrite dict_set_fresh by done. rewrite IH.
    + by rewrite <- app_assoc.
    + unfold keys at 1. rewrite map_app. simpl. by rewrite <- app_assoc.
Qed.

(** The value under a key of the output: the last input entry that
    normalises to it wins. *)
Lemma normalize_fold_get d acc k' :
  dict_get (fold_left step d acc) k' =
  match dict_get (rev (map normalize_entry d)) k' with
  | Some v => Some v
  | None => dict_get acc k'
  end.
Proof.
  revert acc. induction d as [|[k v] r IH]; intros acc; simpl; [done|].
  rewrite IH, dict_get_app, dict_get_set. simpl.
  destruct (dict_get (rev (map normalize_entry r)) k'); [done|].
  by destruct (String.eqb (normalized_key k) k').
Qed.

Lemma normalize_NoDup d : NoDup (keys (normalize_field_names d)).
Proof. apply normalize_fold_NoDup. constructor. Qed.

Lemma normalize_get d k' :
  dict_get (normalize_field_names d) k' = dict_get (rev (map normalize_entry d)) k'.
Proof.
  unfold normalize_field_names. rewrite normalize_fold_get. simpl.
  by destruct (dict_get (rev (map normalize_entry d)) k').
Qed.

(** A dictionary whose keys the renaming leaves alone is left alone. *)
Lemma normalize_fixed d :
  NoDup (keys d) ->
  (forall k, k ∈ keys d -> normalized_key k = k) ->
  normalize_field_names d = d.
Proof.
  intros Hnd Hfix. unfold normalize_field_names.
  assert (Hmap : map normalize_entry d = d).
  { clear Hnd. induction d as [|[k v] r IH]; simpl; [done|].
    unfold normalize_entry at 1. simpl.
    rewrite Hfix by (apply elem_of_cons; by left). f_equal.
    apply IH. intros k' Hk'. apply Hfix. apply elem_of_cons. by right. }
  rewrite normalize_fold_distinct.
  - simpl. exact Hmap.
  - simpl. replace (map normalized_key (keys d)) with (keys d); [done|].
    unfold keys. rewrite <- Hmap at 1. rewrite !map_map. reflexivity.
Qed.

(** Normalising twice is normalising once, for every input. *)
Lemma normalize_field_names_twice d :
  normalize_field_names (normalize_field_names d) = normalize_field_names d.
Proof.
  apply normalize_fixed; [apply normalize_NoDup|].
  intros k Hk.
  destruct (dict_get (normalize_field_names d) k) as [v|] eqn:E.
  - rewrite normalize_get in E.
    assert (k ∈ keys (rev (map normalize_entry d))) as Hk'.
    { destruct (decide (k ∈ keys (rev (map normalize_entry d)))) as [|Hout]; [done|].
      apply dict_get_None in Hout. congruence. }
    apply list_elem_of_In in Hk'. unfold keys in Hk'.
    rewrite map_rev in Hk'. apply in_rev in Hk'. rewrite map_map in Hk'.
    apply in_map_iff in Hk' as (kv & <- & _). apply normalized_key_idem.
  - apply dict_get_None in E. done.
Qed.

End NormalizerFacts.

(** C2 (as stated, refuted): two raw keys that normalise to the same name
    are merged, so an input of two entries gives an output of one. *)
Lemma normalizer_merges_colliding_keys :
  let d : record := [("DATE", JString "2024-01-05"); ("date", JString "05/01/2024")] in
  NoDup (keys d) /\
  length d = 2%nat /\
  normalize_field_names d = [("INVOICE_DATE", JString "05/01/2024")] /\
  length (normalize_field_names d) <> length d.
Proof.
  cbn zeta. split_and!.
  - apply (bool_decide_unpack _). by vm_compute.
  - reflexivity.
  - by vm_compute.
  - by vm_compute.
Qed.

(** C2 (amended): normalisation is a total function; the output is a
    dictionary without repeated keys and never has more entries than the
    input; the normalised key of every input entry is a key of the output,
    and the value under each output key is that of the last input entry
    normalising to it; when no two input keys normalise to the same name the
    output is the input with each key renamed, entry for entry, so it has as
    many entries as the input. *)
Theorem normalizer_total_up_to_collisions (d : record) :
  NoDup (keys (normalize_field_names d)) /\
  (length (normalize_field_names d) <= length d)%nat /\
  (forall k, k ∈ keys d -> normalized_key k ∈ keys (normalize_field_names d)) /\
  (forall k', dict_get (normalize_field_names d) k'
              = dict_get (rev (map normalize_entry d)) k') /\
  (NoDup (map normalized_key (keys d)) ->
   normalize_field_names d = map normalize_entry d /\
   length (normalize_field_names d) = length d).
Proof.
  split_and!.
  - apply normalize_NoDup.
  - exact (normalize_fold_length d []).
  - intros k Hk. by apply normalize_fold_keys_in.
  - apply normalize_get.
  - intros Hnd. unfold normalize_field_names.
    rewrite normalize_fold_distinct by done. simpl.
    split; [done|]. by rewrite length_map.
Qed.

Lemma normalizer_total_up_to_collisions_witness :
  let d : record := [(" invoice no. ", JString "A100"); ("Date", JString "2024-01-05")] in
  normalize_field_names d = map normalize_entry d /\
  length (normalize_field_names d) = length d.
Proof.
  cbn zeta.
  apply (normalizer_total_up_to_collisions
           [(" invoice no. ", JString "A100"); ("Date", JString "2024-01-05")]).
  apply (bool_decide_unpack _). by vm_compute.
Defined.

(** C8: normalising a mapping whose keys are all outputs of the
    normalisation gives the same mapping back. *)
Theorem normalizer_idempotent (d : record) :
  NoDup (keys d) ->
  (forall k, k ∈ keys d -> exists raw, k = normalized_key raw) ->
  normalize_field_names d = d.
Proof.
  intros Hnd Hkeys. apply normalize_fixed; [done|].
  intros k [raw ->]%Hkeys. apply normalized_key_idem.
Qed.

Lemma normalizer_idempotent_witness :
  let d : record := [("INVOICE_NO", JString "A100"); ("NOTES", JString "paid")] in
  normalize_field_names d = d.
Proof.
  cbn zeta. apply normalizer_idempotent.
  - apply (bool_decide_unpack _). by vm_compute.
  - intros k Hk. exists k.
    apply list_elem_of_In in Hk. simpl in Hk.
    destruct Hk as [<-|[<-|[]]]; reflexivity.
Defined.



(** ** Response Parser *)

Section ParserFacts.
Import Re.

Lemma app_nil_l' s : EmptyString +:+ s = s.
Proof. reflexivity. Qed.

Lemma app_cons c r s : String c r +:+ s = String c (r +:+ s).
Proof. reflexivity. Qed.

Lemma append_assoc' a b c : (a +:+ b) +:+ c = a +:+ (b +:+ c).
Proof. induction a as [|x a IH]; [done|]. rewrite !app_cons. by rewrite IH. Qed.

Ltac norm_app := rewrite ?app_cons, ?app_nil_l' in *.

Lemma dotstar_close_none post : occurs "}" post = false -> dotstar_close post = None.
Proof.
  induction post as [|c r IH]; simpl; [done|].
  intros [Hc Hr]%orb_false_elim. rewrite IH by done. by rewrite Hc.
Qed.

(** The greedy star runs to the last closing brace. *)
Lemma dotstar_close_last mid post :
  occurs "}" post = false ->
  dotstar_close (mid +:+ "}" +:+ post) = Some (mid +:+ "}").
Proof.
  intros Hpost. induction mid as [|c r IH]; norm_app; simpl.
  - by rewrite dotstar_close_none.
  - by rewrite IH.
Qed.

Lemma dotstar_close_some mid post : is_Some (dotstar_close (mid +:+ "}" +:+ post)).
Proof.
  induction mid as [|c r IH]; norm_app; simpl.
  - destruct (dotstar_close post); eauto.
  - destruct IH as [m ->]. eauto.
Qed.

(** A match of [.*\}] is a prefix that ends in a closing brace. *)
Lemma dotstar_close_inv s m :
  dotstar_close s = Some m -> exists mid post, m = mid +:+ "}" /\ s = m +:+ post.
Proof.
  revert m. induction s as [|c r IH]; intros m; simpl; [done|].
  destruct (dotstar_close r) as [m'|] eqn:E.
  - intros [= <-]. destruct (IH m' eq_refl) as (mid & post & -> & Hr).
    exists (String c mid), post. norm_app. split; [done|]. by rewrite Hr at 1.
  - destruct (Ascii.eqb_spec c "}") as [->|]; [|done].
    intros [= <-]. by exists EmptyString, r.
Qed.

Lemma search_skip pre s :
  occurs "{" pre = false -> search (pre +:+ s) = search s.
Proof.
  induction pre as [|c r IH]; norm_app; [done|]. simpl.
  intros [Hc Hr]%orb_false_elim. rewrite Hc. by apply IH.
Qed.

(** The match runs from the first opening brace to the last closing one. *)
Lemma search_span pre mid post :
  occurs "{" pre = false -> occurs "}" post = false ->
  search (pre +:+ "{" +:+ mid +:+ "}" +:+ post) = Some ("{" +:+ mid +:+ "}").
Proof.
  intros Hpre Hpost. rewrite search_skip by done.
  change (search (String "{" (mid +:+ "}" +:+ post)) = Some (String "{" (mid +:+ "}"))).
  simpl. by rewrite dotstar_close_last.
Qed.

Lemma search_inv s m :
  search s = Some m ->
  exists pre mid post, s = pre +:+ m +:+ post /\ m = "{" +:+ mid +:+ "}".
Proof.
  induction s as [|c r IH]; simpl; [done|].
  destruct (Ascii.eqb_spec c "{") as [->|Hc].
  - destruct (dotstar_close r) as [m'|] eqn:E; simpl.
    + intros [= <-]. destruct (dotstar_close_inv _ _ E) as (mid & post & -> & Hr).
      exists EmptyString, mid, post. norm_app. split; [|done]. by rewrite Hr at 1.
    + intros (pre & mid & post & -> & ->)%IH.
      by exists (String "{" pre), mid, post.
  - intros (pre & mid & post & -> & ->)%IH.
    by exists (String c pre), mid, post.
Qed.

Lemma search_none text : ~ brace_pair text -> search text = None.
Proof.
  intros Hno. destruct (search text) as [m|] eqn:E; [|done].
  exfalso. apply Hno. destruct (search_inv _ _ E) as (pre & mid & post & -> & ->).
  exists pre, mid, post. by rewrite !append_assoc'.
Qed.

Lemma search_some text : brace_pair text -> is_Some (search text).
Proof.
  intros (a & b & c & ->). induction a as [|x a IH].
  - change (is_Some (search (String "{" (b +:+ "}" +:+ c)))).
    simpl. destruct (dotstar_close_some b c) as [m ->]. simpl. eauto.
  - rewrite app_cons. cbn [search]. destruct (match_here _); eauto.
Qed.

Lemma brace_pair_occurs text : brace_pair text -> occurs "{" text = true.
Proof.
  intros (a & b & c & ->). induction a as [|x a IH]; norm_app; simpl; [done|].
  rewrite IH. apply orb_true_r.
Qed.

End ParserFacts.

Section DecoderFacts.
Import Json.

(** The pair loop of an object can only produce an object. *)
Lemma object_loop_object fuel s pairs v rest :
  object_loop fuel s pairs = Scanned v rest -> exists d, v = JObject d.
Proof.
  revert s pairs. induction fuel as [|fuel IH]; intros s pairs; simpl; [done|].
  repeat case_match; try done.
  - intros [= <- <-]. eauto.
  - apply IH.
Qed.

(** A text that opens with a brace decodes to a dictionary or not at all. *)
Lemma loads_object s v : json_loads (String "{" s) = Some v -> exists d, v = JObject d.
Proof.
  unfold json_loads, loads.
  change (String.prefix (utf8 65279) (String "{" s)) with false.
  change (skip_ws (String "{" s)) with (String "{"%char s).
  cbn [scan_once]. change (Ascii.eqb "{" quote) with false.
  change (Ascii.eqb "{" "{") with true. cbn iota.
  repeat case_match; try done.
  all: intros [= <-]; simplify_eq; eauto using object_loop_object.
Qed.

End DecoderFacts.

(** C1 (as stated, refuted): a reply with exactly one well-formed JSON object
    and a closing brace in the prose after it.  The greedy match runs on to
    that last brace, and decoding the over-long match fails. *)
Lemma parser_greedy_match_counterexample :
  let obj := "{" +:+ dq +:+ "INVOICE TOTAL" +:+ dq +:+ ": " +:+ dq +:+ "250.00" +:+ dq +:+ "}" in
  let text := "Total: " +:+ obj +:+ " (all amounts in USD :-})" in
  json_loads obj = Some (JObject [("INVOICE TOTAL", JString "250.00")]) /\
  object_substrings text = [obj] /\
  Re.search text = Some (obj +:+ " (all amounts in USD :-}") /\
  extract_json text = Raise JSONDecodeError.
Proof. cbn zeta. repeat split; vm_compute; reflexivity. Qed.

(** C1 (amended): when no opening brace occurs in the prose before the
    object and no closing brace in the prose after it, the parser returns
    exactly what decoding the object alone gives, and that is a dictionary;
    a text without an opening brace followed by a closing brace makes the
    parser raise and return nothing. *)
Theorem response_parser_recovery (pre mid post text : string) (v : json) :
  (occurs "{" pre = false ->
   occurs "}" post = false ->
   json_loads ("{" +:+ mid +:+ "}") = Some v ->
   extract_json (pre +:+ "{" +:+ mid +:+ "}" +:+ post) = Return v /\
   exists d, v = JObject d) /\
  (~ brace_pair text ->
   extract_json text = Raise (ValueError "No JSON found in the response")).
Proof.
  split.
  - intros Hpre Hpost Hv. unfold extract_json.
    rewrite search_span by done. rewrite Hv. split; [done|].
    by apply loads_object with (s := mid +:+ "}").
  - intros Hno. unfold extract_json. by rewrite search_none.
Qed.

Lemma response_parser_recovery_witness :
  (extract_json ("Here is the data: " +:+ "{" +:+ (dq +:+ "PO#" +:+ dq +:+ ": 17") +:+ "}"
                 +:+ " Anything else?")
   = Return (JObject [("PO#", JInt 17)]) /\
   exists d, JObject [("PO#", JInt 17)] = JObject d) /\
  extract_json "I could not read the image."
  = Raise (ValueError "No JSON found in the response").
Proof.
  destruct (response_parser_recovery "Here is the data: " (dq +:+ "PO#" +:+ dq +:+ ": 17")
              " Anything else?" "I could not read the image."
              (JObject [("PO#", JInt 17)])) as [Hfound Hnone].
  split.
  - apply Hfound; reflexivity.
  - apply Hnone. intros Hpair%brace_pair_occurs. discriminate Hpair.
Defined.

(** ** The decoder terminates within its budget *)

Section DecoderBudget.
Import Json.

Local Abbreviation len := String.length.

Lemma skip_ws_le s : (len (skip_ws s) <= len s)%nat.
Proof.
  induction s as [|c r IH]; cbn; [lia|]. destruct (is_ws c); cbn; lia.
Qed.

Lemma emit_inv pre res x r :
  emit pre res = Scanned x r -> exists x', res = Scanned x' r.
Proof. destruct res; cbn; [|done|done]. intros [= _ <-]. eauto. Qed.

Lemma emit_fuel pre res : emit pre res = ScanFuel -> res = ScanFuel.
Proof. by destruct res. Qed.

Lemma scanstring_shorter s x r : scanstring s = Scanned x r -> (len r < len s)%nat.
Proof.
  remember (len s) as n eqn:Hn. revert s x r Hn.
  induction n as [n IH] using lt_wf_ind. intros s x r ->.
  assert (Hrec : forall s' x' r', (len s' < len s)%nat ->
                   scanstring s' = Scanned x' r' -> (len r' < len s')%nat).
  { intros s' x' r' Hlt. by apply (IH (len s')). }
  clear IH. destruct s as [|c s1]; cbn [scanstring]; [done|].
  repeat (case_match; subst; try done);
    try (intros [= <- <-]; cbn; lia);
    intros (x' & Hs)%emit_inv; apply Hrec in Hs; cbn in *; lia.
Qed.

Lemma scanstring_budget s : scanstring s <> ScanFuel.
Proof.
  remember (len s) as n eqn:Hn. revert s Hn.
  induction n as [n IH] using lt_wf_ind. intros s ->.
  assert (Hrec : forall s', (len s' < len s)%nat -> scanstring s' <> ScanFuel).
  { intros s' Hlt. by apply (IH (len s')). }
  clear IH. destruct s as [|c s1]; cbn [scanstring]; [done|].
  repeat (case_match; subst; try done);
    intros Hs%emit_fuel; revert Hs; apply Hrec; cbn; lia.
Qed.

Lemma strip_prefix_length p s r :
  strip_prefix p s = Some r -> len s = (len p + len r)%nat.
Proof.
  revert s. induction p as [|a p IH]; intros [|b s]; cbn; try done.
  - by intros [= <-].
  - by intros [= <-].
  - destruct (Ascii.eqb a b); [|done]. intros Hr%IH. lia.
Qed.

Lemma digits_length s d r : digits s = (d, r) -> len s = (len d + len r)%nat.
Proof.
  revert d r. induction s as [|c s IH]; intros d r; cbn.
  - by intros [= <- <-].
  - destruct (is_digit c).
    + destruct (digits s) as [d' r'] eqn:E. intros [= <- <-].
      specialize (IH _ _ eq_refl). cbn. lia.
    + by intros [= <- <-].
Qed.

Lemma match_number_shorter s v r : match_number s = Some (v, r) -> (len r < len s)%nat.
Proof.
  unfold match_number.
  repeat (case_match; simplify_eq/=; try done);
    repeat match goal with
           | H : digits _ = _ |- _ => apply digits_length in H
           end;
    intros ?; simplify_eq/=; lia.
Qed.

Lemma scan_atom_shorter s v r : scan_atom s = Scanned v r -> (len r < len s)%nat.
Proof.
  unfold scan_atom.
  repeat (case_match; subst; try done);
    repeat match goal with
           | H : strip_prefix _ _ = Some _ |- _ => apply strip_prefix_length in H
           | H : match_number _ = Some _ |- _ => apply match_number_shorter in H
           end;
    intros [= _ <-]; cbn in *; lia.
Qed.

Lemma scan_atom_budget s : scan_atom s <> ScanFuel.
Proof. unfold scan_atom. by repeat case_match. Qed.

(** Turn what is known about scanned prefixes into facts on lengths. *)
Ltac lens :=
  repeat match goal with
         | H : skip_ws ?r = String _ _ |- _ =>
             let L := fresh "L" in
             pose proof (skip_ws_le r) as L; rewrite H in L; cbn [String.length] in L;
             clear H
         | H : scanstring _ = Scanned _ _ |- _ => apply scanstring_shorter in H
         | H : scan_atom _ = Scanned _ _ |- _ => apply scan_atom_shorter in H
         end;
  cbn [String.length] in *.

(** With a budget above twice the length of the text, no scanning function
    runs out of it, and each consumes at least one character. *)
Lemma scan_budget fuel :
  (forall s, (2 * len s < fuel)%nat ->
     scan_once fuel s <> ScanFuel /\
     forall v r, scan_once fuel s = Scanned v r -> (len r < len s)%nat) /\
  (forall s pairs, (2 * len s + 1 < fuel)%nat ->
     object_loop fuel s pairs <> ScanFuel /\
     forall v r, object_loop fuel s pairs = Scanned v r -> (len r < len s)%nat) /\
  (forall s items, (2 * len s + 1 < fuel)%nat ->
     array_loop fuel s items <> ScanFuel /\
     forall v r, array_loop fuel s items = Scanned v r -> (len r < len s)%nat).
Proof.
  induction fuel as [|fuel (IHonce & IHobject & IHarray)].
  { split_and!; intros; lia. }
  split_and!.
  - intros s Hs. cbn [scan_once].
    destruct s as [|nextchar r]; [done|].
    destruct (Ascii.eqb nextchar quote).
    { pose proof (scanstring_budget r). destruct (scanstring r) eqn:E; cbn; [|done|done].
      split; [done|]. intros v r' [= _ <-]. lens. lia. }
    destruct (Ascii.eqb nextchar "{").
    { destruct (skip_ws r) as [|c r1] eqn:E; [done|].
      destruct (Ascii.eqb c "}"); [split; [done|]; intros v r' [= _ <-]; lens; lia|].
      destruct (Ascii.eqb c quote); [|done].
      lens. destruct (IHobject r1 []) as [Hfuel Hlen]; [lia|].
      split; [done|]. intros v r' Hv%Hlen. lia. }
    destruct (Ascii.eqb nextchar "[").
    { destruct (skip_ws r) as [|c r1] eqn:E; [done|].
      destruct (Ascii.eqb c "]"); [split; [done|]; intros v r' [= _ <-]; lens; lia|].
      lens. destruct (IHarray (String c r1) []) as [Hfuel Hlen]; [cbn; lia|].
      split; [done|]. intros v r' Hv%Hlen. cbn in Hv. lia. }
    split; [apply scan_atom_budget|]. intros v r' Hv. lens. lia.
  - intros s pairs Hs. cbn [object_loop].
    pose proof (scanstring_budget s).
    destruct (scanstring s) as [key r| |] eqn:Ekey; [|done|done].
    destruct (skip_ws r) as [|c r1] eqn:E1; [done|].
    destruct (Ascii.eqb c ":"); [|done]. lens.
    pose proof (skip_ws_le r1) as L1.
    destruct (IHonce (skip_ws r1)) as [Hfuel Hlen]; [lia|].
    destruct (scan_once fuel (skip_ws r1)) as [value r2| |] eqn:Evalue; [|done|done].
    specialize (Hlen _ _ eq_refl).
    destruct (skip_ws r2) as [|d r3] eqn:E2; [done|].
    destruct (Ascii.eqb d "}"); [split; [done|]; intros v r' [= _ <-]; lens; lia|].
    destruct (Ascii.eqb d ","); [|done].
    destruct (skip_ws r3) as [|q r4] eqn:E3; [done|].
    destruct (Ascii.eqb q quote); [|done]. lens.
    destruct (IHobject r4 (pairs ++ [(key, value)])) as [Hfuel' Hlen']; [lia|].
    split; [done|]. intros v r' Hv%Hlen'. lia.
  - intros s items Hs. cbn [array_loop].
    destruct (IHonce s) as [Hfuel Hlen]; [lia|].
    destruct (scan_once fuel s) as [value r| |] eqn:Evalue; [|done|done].
    specialize (Hlen _ _ eq_refl).
    destruct (skip_ws r) as [|d r1] eqn:E1; [done|].
    destruct (Ascii.eqb d "]"); [split; [done|]; intros v r' [= _ <-]; lens; lia|].
    destruct (Ascii.eqb d ","); [|done]. lens.
    pose proof (skip_ws_le r1) as L1.
    destruct (IHarray (skip_ws r1) (items ++ [value])) as [Hfuel' Hlen']; [lia|].
    split; [done|]. intros v r' Hv%Hlen'. lia.
Qed.

(** [json.loads] as modelled never fails for lack of budget: it fails only
    where the decoder raises. *)
Lemma loads_budget s : scan_once (S (2 * len s)) (skip_ws s) <> ScanFuel.
Proof.
  destruct (scan_budget (S (2 * len s))) as (Honce & _).
  apply Honce. pose proof (skip_ws_le s). lia.
Qed.

End DecoderBudget.

(** The decoder on a few texts: values of every kind, a repeated key (the
    last value wins, at the place of the first), and texts it refuses. *)
Example loads_values :
  json_loads ("  [" +:+ dq +:+ "a\n\/" +:+ dq +:+ ", 1.5, 1e5, -12, true, null, {}, [ ], NaN] ")
  = Some (JArray [JString (String "a" (String "010" "/")); JFloat "1.5"; JFloat "1e5";
                  JInt (-12); JBool true; JNull; JObject []; JArray []; JFloat "NaN"]).
Proof. vm_compute. reflexivity. Qed.

Example loads_repeated_key :
  json_loads ("{" +:+ dq +:+ "a" +:+ dq +:+ " : 1 , " +:+ dq +:+ "b" +:+ dq +:+ ":2, "
              +:+ dq +:+ "a" +:+ dq +:+ ":3}")
  = Some (JObject [("a", JInt 3); ("b", JInt 2)]).
Proof. vm_compute. reflexivity. Qed.

Example loads_refused :
  json_loads "[1,]" = None /\ json_loads "[01]" = None /\ json_loads "{'a': 1}" = None /\
  json_loads "[1] x" = None /\ json_loads "[1.]" = None /\ json_loads "" = None /\
  json_loads ("{" +:+ dq +:+ "a" +:+ dq +:+ ":1,}") = None.
Proof. repeat split; vm_compute; reflexivity. Qed.

(** ** One attempt and the retry loop *)

(** Unfolding the monad and its primitive operations. *)
Ltac run :=
  unfold mbind, mret, M_bind, M_ret, bind, ret, raise, lift, try_except,
    show, time_sleep, write_file, read_file, os_remove,
    convert_from_path, chat_completions_create, set_fs in *;
  cbn [fs raster_calls model_calls slept ui] in *.

Section AttemptFacts.

Lemma extract_json_object text v :
  extract_json text = Return v -> exists d, v = JObject d.
Proof.
  unfold extract_json. destruct (Re.search text) as [m|] eqn:Em; [|done].
  destruct (json_loads m) as [v'|] eqn:Ev; [|done]. intros [= <-].
  destruct (search_inv _ _ Em) as (pre & mid & post & _ & ->).
  by apply loads_object with (s := mid +:+ "}").
Qed.

Lemma image_saved (path : string) (files : gset string) :
  bool_decide (path ∈ {[path]} ∪ files) = true.
Proof. apply bool_decide_eq_true. set_solver. Qed.

(** The branch for a decoded value that is no dictionary is never taken. *)
Lemma attempt_outcome_not_AttributeError w pdf_file :
  attempt_outcome w pdf_file <> Raise AttributeError.
Proof.
  unfold attempt_outcome. repeat case_match; try done.
  all: match goal with
       | H : extract_json _ = Return _ |- _ => by apply extract_json_object in H as [? ?]
       | H : extract_json _ = Raise AttributeError |- _ =>
           unfold extract_json in H; by repeat case_match
       end.
Qed.

(** One attempt: its outcome, and what it does to the state. *)
Lemma attempt_body_spec w pdf_file attempt st :
  exists st',
    attempt_body w pdf_file attempt st = (attempt_outcome w pdf_file, st') /\
    raster_calls st' = S (raster_calls st) /\
    model_calls st' = (model_calls st + if reaches_model w then 1 else 0)%nat /\
    slept st' = slept st /\
    fs st' = attempt_files w pdf_file (fs st).
Proof.
  unfold attempt_body, parse_response, items, attempt_files, attempt_outcome,
    reaches_model.
  run. destruct (pages w) as [[|image images]|]; cbn.
  - eexists. split; [reflexivity|]. cbn. split_and!; try reflexivity; lia.
  - rewrite image_saved. destruct (reply w) as [response_text|]; cbn.
    + destruct (extract_json response_text) as [[]|[]] eqn:E; cbn;
        rewrite ?image_saved;
        (eexists; split; [reflexivity|]; cbn; split_and!; try reflexivity; try lia).
    + eexists. split; [reflexivity|]. cbn. split_and!; try reflexivity; lia.
  - eexists. split; [reflexivity|]. cbn. split_and!; try reflexivity; lia.
Qed.

(** The retry loop, entered with as many iterations left as the range
    still holds. *)
Lemma process_pdf_from_spec W pdf_file max_retries retry_delay remaining attempt st :
  Z.of_nat (attempt + remaining) = max_retries ->
  exists st',
    process_pdf_from W pdf_file max_retries retry_delay remaining attempt st
    = (Return (first_success W pdf_file remaining attempt), st') /\
    raster_calls st'
    = (raster_calls st + length (attempts_run W pdf_file remaining attempt))%nat /\
    model_calls st'
    = (model_calls st + model_calls_of W (attempts_run W pdf_file remaining attempt))%nat /\
    fs st' = files_after W pdf_file (attempts_run W pdf_file remaining attempt) (fs st) /\
    (first_success W pdf_file remaining attempt = None -> remaining <> O ->
     last (ui st') = Some (AllRetriesFailed pdf_file)).
Proof.
  revert attempt st. induction remaining as [|remaining IH]; intros attempt st Hmax.
  - eexists. split; [reflexivity|].
    unfold model_calls_of, files_after. cbn. split_and!; try done; try lia.
  - cbn [process_pdf_from first_success attempts_run].
    destruct (attempt_body_spec (W attempt) pdf_file (Z.of_nat attempt) st)
      as (st1 & Hrun & Hr & Hm & _ & Hfs).
    unfold try_except at 1. unfold mbind at 1, M_bind at 1, bind at 1.
    rewrite Hrun.
    destruct (attempt_outcome (W attempt) pdf_file) as [extracted_data|e] eqn:Ho.
    + eexists. split; [reflexivity|].
      unfold model_calls_of, files_after. cbn.
      rewrite Hr, Hm, Hfs.
      destruct (reaches_model (W attempt)); cbn; split_and!; try done; lia.
    + destruct (Z.ltb_spec (Z.of_nat attempt) (max_retries - 1)) as [Hlt|Hge].
      * destruct (IH (S attempt)
                    {| fs := fs st1; raster_calls := raster_calls st1;
                       model_calls := model_calls st1;
                       slept := slept st1 + retry_delay;
                       ui := (ui st1 ++ [AttemptWarning pdf_file (Z.of_nat attempt + 1) e])
                               ++ [Retrying pdf_file retry_delay] |})
          as (st' & Hrest & Hr' & Hm' & Hfs' & Hui'); [lia|].
        exists st'. split.
        { run. exact Hrest. }
        cbn in Hr', Hm', Hfs'.
        unfold model_calls_of, files_after in *. cbn.
        destruct (reaches_model (W attempt)); cbn;
          rewrite Hr', Hm', Hfs', Hr, Hm, Hfs; split_and!; try done; try lia.
        all: intros Hnone _; apply Hui'; [done|lia].
      * assert (remaining = O) as -> by lia.
        eexists. split; [run; reflexivity|].
        unfold model_calls_of, files_after. cbn.
        rewrite Hr, Hm, Hfs. split_and!; try done; try lia.
        { destruct (reaches_model (W attempt)); cbn; lia. }
        intros _ _. by rewrite last_snoc.
Qed.

End AttemptFacts.

Section RetryFacts.

Lemma model_fails_outcome w pdf_file :
  model_fails w -> exists e, attempt_outcome w pdf_file = Raise e.
Proof.
  intros [Hreach Hreply]. unfold attempt_outcome, reaches_model in *.
  destruct (pages w) as [[|image images]|]; try done.
  destruct Hreply as [->|(text & -> & Hno)]; [eauto|].
  destruct (extract_json text) as [v|e] eqn:E.
  - by destruct (Hno v).
  - destruct e; eauto.
Qed.

Lemma model_succeeds_outcome w pdf_file d :
  model_succeeds w d -> attempt_outcome w pdf_file = Return (tagged pdf_file d).
Proof.
  intros [Hreach (text & Hreply & Hd)]. unfold attempt_outcome, reaches_model in *.
  destruct (pages w) as [[|image images]|]; try done.
  by rewrite Hreply, Hd.
Qed.

Lemma rasterization_fails_outcome w pdf_file :
  rasterization_fails w ->
  reaches_model w = false /\ exists e, attempt_outcome w pdf_file = Raise e.
Proof.
  unfold attempt_outcome, reaches_model. intros [-> | ->]; eauto.
Qed.

(** When every remaining attempt raises, all of them are run. *)
Lemma attempts_run_all_fail W pdf_file remaining attempt :
  (forall i, (attempt <= i < attempt + remaining)%nat ->
             exists e, attempt_outcome (W i) pdf_file = Raise e) ->
  attempts_run W pdf_file remaining attempt = seq attempt remaining /\
  first_success W pdf_file remaining attempt = None.
Proof.
  revert attempt. induction remaining as [|remaining IH]; intros attempt Hall; [done|].
  cbn. destruct (Hall attempt) as [e ->]; [lia|].
  destruct (IH (S attempt)) as [-> ->]; [|done].
  intros i Hi. apply Hall. lia.
Qed.

(** When [k] attempts raise and the next returns, [k + 1] are run. *)
Lemma attempts_run_then_success W pdf_file remaining attempt k extracted_data :
  (k < remaining)%nat ->
  (forall i, (attempt <= i < attempt + k)%nat ->
             exists e, attempt_outcome (W i) pdf_file = Raise e) ->
  attempt_outcome (W (attempt + k)%nat) pdf_file = Return extracted_data ->
  attempts_run W pdf_file remaining attempt = seq attempt (S k) /\
  first_success W pdf_file remaining attempt = Some extracted_data.
Proof.
  revert attempt remaining.
  induction k as [|k IH]; intros attempt remaining Hk Hfail Hok.
  - destruct remaining as [|remaining]; [lia|]. cbn.
    rewrite Nat.add_0_r in Hok. by rewrite Hok.
  - destruct remaining as [|remaining]; [lia|]. cbn [attempts_run first_success].
    destruct (Hfail attempt) as [e ->]; [lia|].
    destruct (IH (S attempt) remaining) as [-> ->]; [lia| | |done].
    + intros i Hi. apply Hfail. lia.
    + by replace (S attempt + k)%nat with (attempt + S k)%nat by lia.
Qed.

Lemma model_calls_of_all W attempts :
  (forall i, i ∈ attempts -> reaches_model (W i) = true) ->
  model_calls_of W attempts = length attempts.
Proof.
  unfold model_calls_of. induction attempts as [|i r IH]; intros Hall; [done|].
  cbn. rewrite (Hall i) by left. cbn. f_equal. apply IH.
  intros j Hj. apply Hall. by right.
Qed.

Lemma model_calls_of_none W attempts :
  (forall i, i ∈ attempts -> reaches_model (W i) = false) ->
  model_calls_of W attempts = O.
Proof.
  unfold model_calls_of. induction attempts as [|i r IH]; intros Hall; [done|].
  cbn. rewrite (Hall i) by left. apply IH.
  intros j Hj. apply Hall. by right.
Qed.

Lemma elem_of_seq_range (i start len : nat) :
  i ∈ seq start len -> (start <= i < start + len)%nat.
Proof. intros Hi%list_elem_of_In. by apply in_seq in Hi. Qed.

(** [process_pdf] for any [max_retries], also a negative one (an empty
    range: no attempt is made). *)
Lemma process_pdf_run W pdf_file max_retries retry_delay st :
  exists st',
    process_pdf W pdf_file max_retries retry_delay st
    = (Return (first_success W pdf_file (Z.to_nat max_retries) 0), st') /\
    raster_calls st'
    = (raster_calls st + length (attempts_run W pdf_file (Z.to_nat max_retries) 0))%nat /\
    model_calls st'
    = (model_calls st
       + model_calls_of W (attempts_run W pdf_file (Z.to_nat max_retries) 0))%nat /\
    fs st' = files_after W pdf_file (attempts_run W pdf_file (Z.to_nat max_retries) 0) (fs st) /\
    (first_success W pdf_file (Z.to_nat max_retries) 0 = None -> 0 < max_retries ->
     last (ui st') = Some (AllRetriesFailed pdf_file)).
Proof.
  unfold process_pdf. destruct (Z.le_gt_cases 0 max_retries) as [Hpos|Hneg].
  - destruct (process_pdf_from_spec W pdf_file max_retries retry_delay
                (Z.to_nat max_retries) 0 st) as (st' & Hrun & Hr & Hm & Hfs & Hui); [lia|].
    exists st'. split_and!; try done. intros Hnone Hmax. apply Hui; [done|lia].
  - replace (Z.to_nat max_retries) with O by lia.
    exists st. unfold model_calls_of, files_after. cbn. split_and!; try done; lia.
Qed.

End RetryFacts.

(** C3: a model that fails on the first [k < max_retries] attempts and then
    succeeds gives the record of the successful reply after exactly [k + 1]
    model calls; a model that fails on every attempt is called exactly
    [max_retries] times (the length of [range(max_retries)]), after which
    the document is reported as failed and yields no record.  The default of
    [max_retries] is 3. *)
Theorem extraction_retry_counts (W : nat -> attempt_world) (pdf_file : string)
    (max_retries retry_delay : Z) (st : env) (k : nat) (d : record) :
  (Z.of_nat k < max_retries ->
   (forall i, (i < k)%nat -> model_fails (W i)) ->
   model_succeeds (W k) d ->
   exists st',
     process_pdf W pdf_file max_retries retry_delay st
     = (Return (Some (tagged pdf_file d)), st') /\
     model_calls st' = (model_calls st + (k + 1))%nat) /\
  ((forall i, Z.of_nat i < max_retries -> model_fails (W i)) ->
   exists st',
     process_pdf W pdf_file max_retries retry_delay st = (Return None, st') /\
     model_calls st' = (model_calls st + Z.to_nat max_retries)%nat /\
     (0 < max_retries -> last (ui st') = Some (AllRetriesFailed pdf_file))) /\
  default_max_retries = 3.
Proof.
  destruct (process_pdf_run W pdf_file max_retries retry_delay st)
    as (st' & Hrun & _ & Hm & _ & Hui).
  split_and!; [| |done].
  - intros Hk Hfail Hok.
    destruct (attempts_run_then_success W pdf_file (Z.to_nat max_retries) 0 k
                (tagged pdf_file d)) as [Hruns Hfirst]; [lia| | |].
    { intros i Hi. apply model_fails_outcome, Hfail. lia. }
    { by apply model_succeeds_outcome. }
    exists st'. rewrite Hrun, Hfirst. split; [done|].
    rewrite Hm, Hruns, model_calls_of_all, length_seq; [lia|].
    intros i Hi%elem_of_seq_range.
    destruct (decide (i = k)) as [->|Hne]; [apply Hok|].
    apply Hfail. lia.
  - intros Hfail.
    destruct (attempts_run_all_fail W pdf_file (Z.to_nat max_retries) 0) as [Hruns Hfirst].
    { intros i Hi. apply model_fails_outcome, Hfail. lia. }
    exists st'. rewrite Hrun, Hfirst. split; [done|]. split.
    + rewrite Hm, Hruns, model_calls_of_all, length_seq; [lia|].
      intros i Hi%elem_of_seq_range. apply Hfail. lia.
    + intros Hpos. rewrite Hfirst in Hui. by apply Hui.
Qed.

(** C7: a document whose rasterisation fails on every attempt is rasterised
    once per attempt, [max_retries] times in all (the length of
    [range(max_retries)]), without a single model call, and yields no
    record; whatever happens in an attempt, it calls the rasteriser exactly
    once. *)
Theorem rasterization_failure_retried (W : nat -> attempt_world) (pdf_file : string)
    (max_retries retry_delay : Z) (st : env) :
  (forall i, Z.of_nat i < max_retries -> rasterization_fails (W i)) ->
  (exists st',
     process_pdf W pdf_file max_retries retry_delay st = (Return None, st') /\
     raster_calls st' = (raster_calls st + Z.to_nat max_retries)%nat /\
     model_calls st' = model_calls st) /\
  (forall w attempt st0,
     raster_calls (snd (attempt_body w pdf_file attempt st0)) = S (raster_calls st0)).
Proof.
  intros Hfail. split.
  - destruct (process_pdf_run W pdf_file max_retries retry_delay st)
      as (st' & Hrun & Hr & Hm & _).
    destruct (attempts_run_all_fail W pdf_file (Z.to_nat max_retries) 0) as [Hruns Hfirst].
    { intros i Hi. apply rasterization_fails_outcome, Hfail. lia. }
    exists st'. rewrite Hrun, Hfirst. split; [done|]. split.
    + rewrite Hr, Hruns, length_seq. lia.
    + rewrite Hm, Hruns, model_calls_of_none; [lia|].
      intros i Hi%elem_of_seq_range. apply rasterization_fails_outcome; [exact pdf_file|].
      apply Hfail. lia.
  - intros w attempt st0.
    destruct (attempt_body_spec w pdf_file attempt st0) as (st1 & -> & Hr & _).
    exact Hr.
Qed.

Lemma extraction_retry_counts_witness :
  (exists st',
     process_pdf (flaky_model 2) "inv1.pdf" 3 5 env0
     = (Return (Some (tagged "inv1.pdf"
                        [("INVOICE NO.", JString "A100"); ("DATE", JString "2024-01-05");
                         ("INVOICE TOTAL", JString "250.00")])), st') /\
     model_calls st' = (model_calls env0 + (2 + 1))%nat) /\
  (exists st',
     process_pdf dead_model "inv1.pdf" 3 5 env0 = (Return None, st') /\
     model_calls st' = (model_calls env0 + Z.to_nat 3)%nat /\
     (0 < 3 -> last (ui st') = Some (AllRetriesFailed "inv1.pdf"))).
Proof.
  split.
  - apply (extraction_retry_counts (flaky_model 2) "inv1.pdf" 3 5 env0 2).
    + lia.
    + intros i Hi. split; [reflexivity|]. left.
      destruct i as [|[|i]]; [reflexivity|reflexivity|lia].
    + split; [reflexivity|]. exists inv1_reply. split; reflexivity.
  - apply (extraction_retry_counts dead_model "inv1.pdf" 3 5 env0 0 []).
    intros i _. split; [reflexivity|]. by left.
Defined.

Lemma rasterization_failure_retried_witness :
  exists st',
    process_pdf broken_pdf "scan.pdf" 3 5 env0 = (Return None, st') /\
    raster_calls st' = (raster_calls env0 + Z.to_nat 3)%nat /\
    model_calls st' = model_calls env0.
Proof.
  apply (rasterization_failure_retried broken_pdf "scan.pdf" 3 5 env0).
  intros i _. by left.
Defined.

(** ** Scratch files *)

Section ScratchFacts.

(** An attempt that returns a record leaves no temp image behind. *)
Lemma returning_attempt_removes_image w pdf_file files :
  (exists r, attempt_outcome w pdf_file = Return r) ->
  temp_image_name pdf_file ∉ attempt_files w pdf_file files.
Proof.
  intros [r Hr]. unfold attempt_files. rewrite Hr.
  unfold attempt_outcome, reaches_model in *.
  destruct (pages w) as [[|image images]|]; try done.
  apply not_elem_of_difference. right. by apply elem_of_singleton.
Qed.

(** An attempt that reaches the model and then raises leaves it there. *)
Lemma raising_attempt_keeps_image w pdf_file files :
  reaches_model w = true ->
  (exists e, attempt_outcome w pdf_file = Raise e) ->
  temp_image_name pdf_file ∈ attempt_files w pdf_file files.
Proof.
  intros Hreach [e He]. unfold attempt_files. rewrite He, Hreach.
  unfold reaches_model in Hreach. destruct (pages w); [|done].
  apply elem_of_union. left. by apply elem_of_singleton.
Qed.

(** An attempt that raises removes nothing. *)
Lemma raising_attempt_keeps_files w pdf_file files :
  (exists e, attempt_outcome w pdf_file = Raise e) ->
  files ⊆ attempt_files w pdf_file files.
Proof.
  intros [e He]. unfold attempt_files. rewrite He.
  destruct (pages w); [|done].
  destruct (reaches_model w); intros x Hx; repeat (apply elem_of_union; right); done.
Qed.

(** A document whose model fails on every attempt: when [process_pdf]
    gives up, the temp image of the last attempt is still in temp_dir. *)
Lemma failed_document_keeps_image W pdf_file max_retries retry_delay st :
  0 < max_retries ->
  (forall i, Z.of_nat i < max_retries -> model_fails (W i)) ->
  exists st',
    process_pdf W pdf_file max_retries retry_delay st = (Return None, st') /\
    temp_image_name pdf_file ∈ fs st'.
Proof.
  intros Hmax Hfail. unfold process_pdf.
  destruct (process_pdf_from_spec W pdf_file max_retries retry_delay
              (Z.to_nat max_retries) 0 st) as (st' & Hrun & _ & _ & Hfs & _); [lia|].
  destruct (attempts_run_all_fail W pdf_file (Z.to_nat max_retries) 0) as [Hruns Hfirst].
  { intros i Hi. apply model_fails_outcome, Hfail. lia. }
  exists st'. rewrite Hrun, Hfirst. split; [done|].
  rewrite Hfs, Hruns. clear Hrun Hfs Hruns Hfirst st'.
  assert (Hn : Z.to_nat max_retries = S (Z.to_nat max_retries - 1)) by lia.
  rewrite Hn, seq_S. unfold files_after. rewrite fold_left_app. cbn.
  apply raising_attempt_keeps_image.
  - apply Hfail. lia.
  - apply model_fails_outcome, Hfail. lia.
Qed.

(** Leaving the [with] block empties temp_dir, however the body ends. *)
Lemma with_temporary_directory_cleans {A} (body : M A) st :
  fs (snd (with_temporary_directory body st)) = ∅.
Proof. unfold with_temporary_directory. by destruct (body _). Qed.

End ScratchFacts.

(** C6 (the code departs from it): a document whose model call raises on all
    three attempts.  [process_pdf] returns without a record and the
    document's temp image is still in temp_dir: [os.remove] sits on the
    success path only. *)
Theorem temp_image_left_after_failure :
  fst (process_pdf dead_model "inv1.pdf" default_max_retries default_retry_delay env0)
  = Return None /\
  temp_image_name "inv1.pdf" = "temp_inv1.pdf.png" /\
  "temp_inv1.pdf.png"
    ∈ fs (snd (process_pdf dead_model "inv1.pdf" default_max_retries default_retry_delay env0)) /\
  "temp_inv1.pdf.png"
    ∉ fs (snd (process_pdf (flaky_model 0) "inv1.pdf" default_max_retries default_retry_delay env0)).
Proof.
  split_and!.
  - vm_compute. reflexivity.
  - reflexivity.
  - apply (bool_decide_unpack _). vm_compute. exact I.
  - apply (bool_decide_unpack _). vm_compute. exact I.
Qed.

(** ** The batch loop *)

Section BatchFacts.

Lemma process_pdf_spec file st :
  exists st',
    process_pdf (external file) (name file) default_max_retries default_retry_delay st
    = (Return (document_result file), st') /\
    raster_calls st' = (raster_calls st + length (attempts_of file))%nat /\
    model_calls st' = (model_calls st + model_calls_of (external file) (attempts_of file))%nat /\
    fs st' = files_after (external file) (name file) (attempts_of file) (fs st).
Proof.
  unfold process_pdf, document_result, attempts_of.
  destruct (process_pdf_from_spec (external file) (name file) default_max_retries
              default_retry_delay (Z.to_nat default_max_retries) 0 st)
    as (st' & Hrun & Hr & Hm & Hfs & _); [done|].
  exists st'. by rewrite Hrun.
Qed.

(** The loop never raises; it returns [data] extended by the records of
    the documents that have one, and it attempts every document. *)
Lemma process_files_spec files idx total_files data st :
  exists st',
    process_files files idx total_files data st
    = (Return (data ++ batch_records files), st') /\
    raster_calls st'
    = (raster_calls st + sum_list (map (fun f => length (attempts_of f)) files))%nat /\
    model_calls st'
    = (model_calls st
       + sum_list (map (fun f => model_calls_of (external f) (attempts_of f)) files))%nat.
Proof.
  revert idx data st. induction files as [|file rest IH]; intros idx data st.
  - exists st. cbn. rewrite app_nil_r. split_and!; [done|lia|lia].
  - cbn [process_files].
    set (st0 := {| fs := fs st; raster_calls := raster_calls st;
                   model_calls := model_calls st; slept := slept st;
                   ui := ui st ++ [Processing (name file)] |}).
    destruct (process_pdf_spec file st0) as (st1 & Hrun & Hr & Hm & _).
    unfold batch_records. cbn [omap list_omap].
    destruct (document_result file) as [extracted_data|] eqn:Hres.
    + destruct (IH (S idx) (data ++ [extracted_data])
                  {| fs := fs st1; raster_calls := raster_calls st1;
                     model_calls := model_calls st1; slept := slept st1;
                     ui := ui st1 ++ [Progress (S idx) total_files] |})
        as (st' & Hrest & Hr' & Hm').
      exists st'. split.
      { run. fold st0. rewrite Hrun. cbn. rewrite Hrest.
        unfold batch_records. by rewrite <- app_assoc. }
      cbn in Hr', Hm'. cbn. rewrite Hr', Hm', Hr, Hm. cbn.
      split; lia.
    + destruct (IH (S idx) data
                  {| fs := fs st1; raster_calls := raster_calls st1;
                     model_calls := model_calls st1; slept := slept st1;
                     ui := (ui st1 ++ [Failed]) ++ [Progress (S idx) total_files] |})
        as (st' & Hrest & Hr' & Hm').
      exists st'. split.
      { run. fold st0. rewrite Hrun. cbn. by rewrite Hrest. }
      cbn in Hr', Hm'. cbn. rewrite Hr', Hm', Hr, Hm. cbn. split; lia.
Qed.

Lemma attempts_of_nonempty file : (1 <= length (attempts_of file))%nat.
Proof.
  unfold attempts_of. change (Z.to_nat default_max_retries) with 3%nat.
  cbn [attempts_run length]. lia.
Qed.

(** A document has no record exactly when all its attempts raise. *)
Lemma first_success_none W pdf_file remaining attempt :
  first_success W pdf_file remaining attempt = None <->
  forallb (fun i => raises (attempt_outcome (W i) pdf_file)) (seq attempt remaining) = true.
Proof.
  revert attempt. induction remaining as [|remaining IH]; intros attempt; cbn; [done|].
  destruct (attempt_outcome (W attempt) pdf_file); cbn; [done|]. apply IH.
Qed.

Lemma document_result_none file :
  document_result file = None <-> fails_all_retries file = true.
Proof. apply first_success_none. Qed.

(** A record carries the name of its document. *)
Lemma first_success_pdf_file W pdf_file remaining attempt r :
  first_success W pdf_file remaining attempt = Some r ->
  dict_get r "pdf_file" = Some (JString pdf_file).
Proof.
  revert attempt. induction remaining as [|remaining IH]; intros attempt; cbn; [done|].
  destruct (attempt_outcome (W attempt) pdf_file) as [r'|e] eqn:E; [|apply IH].
  intros [= <-]. unfold attempt_outcome in E.
  repeat case_match; simplify_eq.
  unfold tagged. by rewrite dict_get_set.
Qed.

Lemma batch_records_length files :
  (length (batch_records files) + length (List.filter fails_all_retries files)
   = length files)%nat.
Proof.
  unfold batch_records. induction files as [|file rest IH]; [done|].
  cbn [omap list_omap List.filter].
  destruct (document_result file) as [r|] eqn:E.
  - destruct (fails_all_retries file) eqn:F.
    + apply document_result_none in F. congruence.
    + cbn. lia.
  - apply document_result_none in E. rewrite E. cbn. lia.
Qed.

Lemma batch_records_names files :
  map (fun r => dict_get r "pdf_file") (batch_records files)
  = map (fun f => Some (JString (name f)))
        (List.filter (fun f => negb (fails_all_retries f)) files).
Proof.
  unfold batch_records. induction files as [|file rest IH]; [done|].
  cbn [omap list_omap List.filter].
  destruct (document_result file) as [r|] eqn:E.
  - destruct (fails_all_retries file) eqn:F.
    + apply document_result_none in F. congruence.
    + cbn. rewrite IH. f_equal. by apply first_success_pdf_file in E.
  - apply document_result_none in E. by rewrite E.
Qed.

End BatchFacts.

(** C4: the batch loop never raises.  Of [N] documents of which [M] fail all
    three attempts it returns [N - M] records: the record [process_pdf]
    returns for each document that has one, in upload order and carrying
    that document's name, and nothing for the others; and it attempts every
    document at least once, whatever became of the ones before it. *)
Theorem batch_aggregation (files : list uploaded_file) (st : env) :
  exists st',
    process_files files 0 (length files) [] st = (Return (batch_records files), st') /\
    (length (batch_records files) + length (List.filter fails_all_retries files)
     = length files)%nat /\
    map (fun r => dict_get r "pdf_file") (batch_records files)
    = map (fun f => Some (JString (name f)))
          (List.filter (fun f => negb (fails_all_retries f)) files) /\
    (forall f st0,
       fst (process_pdf (external f) (name f) default_max_retries default_retry_delay st0)
       = Return (document_result f)) /\
    batch_records files = omap document_result files /\
    (forall f, document_result f = None <-> fails_all_retries f = true) /\
    raster_calls st'
    = (raster_calls st + sum_list (map (fun f => length (attempts_of f)) files))%nat /\
    Forall (fun f => (1 <= length (attempts_of f))%nat) files.
Proof.
  destruct (process_files_spec files 0 (length files) [] st) as (st' & Hrun & Hr & _).
  exists st'. split_and!.
  - exact Hrun.
  - apply batch_records_length.
  - apply batch_records_names.
  - intros f st0. by destruct (process_pdf_spec f st0) as (st1 & -> & _).
  - reflexivity.
  - apply document_result_none.
  - exact Hr.
  - apply Forall_forall. intros f _. apply attempts_of_nonempty.
Qed.

(** ** The cache and a run of the script *)

Section ScriptFacts.
Import PyStr.

Lemma list_eqb_eq l1 l2 : list_eqb l1 l2 = true <-> l1 = l2.
Proof.
  revert l2. induction l1 as [|x r1 IH]; intros [|y r2]; cbn; try done.
  rewrite andb_true_iff, String.eqb_eq, IH. split; [by intros [-> ->]|by intros [= -> ->]].
Qed.


Lemma save_uploads_spec files pdf_files st :
  exists st',
    save_uploads files pdf_files st = (Return (pdf_files ++ map name files), st') /\
    raster_calls st' = raster_calls st /\
    model_calls st' = model_calls st.
Proof.
  revert pdf_files st. induction files as [|file rest IH]; intros pdf_files st.
  - exists st. cbn. by rewrite app_nil_r.
  - cbn [save_uploads].
    destruct (IH (pdf_files ++ [name file])
                (set_fs (fun files => {[name file]} ∪ files) st))
      as (st' & Hrun & Hr & Hm).
    exists st'. split; [|done].
    unfold mbind, M_bind, bind, write_file. rewrite Hrun. cbn. by rewrite <- app_assoc.
Qed.

Lemma process_batch_spec files ss st :
  exists st',
    process_batch files ss st = (Return (session_after ss (batch_records files)), st') /\
    raster_calls st' = (raster_calls st + batch_raster_calls files)%nat /\
    model_calls st' = (model_calls st + batch_model_calls files)%nat /\
    fs st' = ∅.
Proof.
  unfold process_batch, with_temporary_directory.
  destruct (save_uploads_spec files [] (set_fs (fun _ => ∅) st)) as (st1 & Hsave & Hr1 & Hm1).
  cbn [app] in Hsave. run. rewrite Hsave.
  destruct (map name files) as [|n ns]; cbn.
  all: match goal with |- context [process_files ?f ?i ?t ?d ?s] =>
         destruct (process_files_spec f i t d s) as (st3 & Hloop & Hr3 & Hm3) end.
  all: rewrite Hloop; cbn in Hr3, Hm3; cbn.
  all: unfold batch_raster_calls, batch_model_calls.
  all: destruct (batch_records files) as [|r rs]; cbn.
  all: eexists; (split; [reflexivity|]); cbn; split_and!; [lia|lia|done].
Qed.

End ScriptFacts.

Section RunFacts.
Import PyStr.

Lemma refresh_cache_names files ss :
  uploaded_file_names (refresh_cache files ss) = sorted (map name files).
Proof.
  unfold refresh_cache.
  destruct (data ss); cbn; [|done].
  destruct (list_eqb _ _) eqn:E; cbn; [|done]. by apply list_eqb_eq in E.
Qed.


Lemma refresh_cache_miss files ss :
  data ss = None \/ uploaded_file_names ss <> sorted (map name files) ->
  refresh_cache files ss = {| data := None; uploaded_file_names := sorted (map name files) |}.
Proof.
  intros [Hd|Hnames]; unfold refresh_cache.
  - by rewrite Hd.
  - destruct (list_eqb _ _) eqn:E; [by apply list_eqb_eq in E|].
    cbn. by rewrite orb_true_r.
Qed.



Lemma run_script_nil ss st : run_script [] ss st = (Return (ss, None), st).
Proof. reflexivity. Qed.

(** On an empty session the whole batch is processed. *)
Lemma run_script_fresh files st :
  files <> [] ->
  exists st',
    run_script files initial_session st
    = (Return (session_after {| data := None; uploaded_file_names := sorted (map name files) |}
                 (batch_records files),
               match batch_records files with
               | [] => None
               | r :: rs => Some (make_table (r :: rs))
               end), st') /\
    raster_calls st' = (raster_calls st + batch_raster_calls files)%nat /\
    model_calls st' = (model_calls st + batch_model_calls files)%nat /\
    fs st' = ∅.
Proof.
  intros Hfiles. destruct files as [|file rest]; [done|].
  unfold run_script. rewrite (refresh_cache_miss _ initial_session) by (by left).
  cbn [data].
  destruct (process_batch_spec (file :: rest)
              {| data := None; uploaded_file_names := sorted (map name (file :: rest)) |} st)
    as (st1 & Hrun & Hr & Hm & Hfs).
  unfold mbind at 1, M_bind at 1, bind at 1. rewrite Hrun.
  destruct (batch_records (file :: rest)) as [|r rs]; cbn [session_after data].
  - run. eexists. split; [reflexivity|]. by cbn.
  - run. eexists. split; [reflexivity|]. by cbn.
Qed.

(** A run that offers a table leaves its records cached under the sorted
    names of its uploads. *)
Lemma run_script_table files ss st ss' table st' :
  run_script files ss st = (Return (ss', Some table), st') ->
  files <> [] /\
  uploaded_file_names ss' = sorted (map name files) /\
  exists r rs, data ss' = Some (r :: rs) /\ table = make_table (r :: rs).
Proof.
  destruct files as [|file rest]; [done|]. intros Hrun. split; [done|].
  revert Hrun. unfold run_script.
  pose proof (refresh_cache_names (file :: rest) ss) as Hnames.
  destruct (refresh_cache (file :: rest) ss) as [[d|] names] eqn:Hrefresh;
    cbn [data uploaded_file_names] in *.
  - run. destruct d as [|r rs]; [done|]. intros [= <- <- _]. eauto.
  - destruct (process_batch_spec (file :: rest)
                {| data := None; uploaded_file_names := names |} st)
      as (st1 & Hbatch & _).
    unfold mbind at 1, M_bind at 1, bind at 1. rewrite Hbatch.
    destruct (batch_records (file :: rest)) as [|r rs]; cbn [session_after data]; run.
    + done.
    + intros [= <- <- _]. eauto.
Qed.


End RunFacts.

Section SessionFacts.
Import PyStr.

Lemma initial_session_ok : session_ok initial_session.
Proof. done. Qed.


End SessionFacts.




(** ** The table *)

Section TableFacts.

Lemma mem_elem_of k l : mem k l = true <-> k ∈ l.
Proof.
  unfold mem. rewrite existsb_exists. split.
  - intros (x & Hx%list_elem_of_In & ->%String.eqb_eq). done.
  - intros Hk. exists k. split; [by apply list_elem_of_In|apply String.eqb_refl].
Qed.

Lemma add_labels_mono cols r k : k ∈ cols -> k ∈ add_labels cols r.
Proof.
  unfold add_labels. generalize (keys r) as ks. intros ks. revert cols.
  induction ks as [|k0 ks IH]; intros cols Hk; cbn; [done|].
  apply IH. destruct (mem k0 cols); [done|]. apply elem_of_app. by left.
Qed.

Lemma add_labels_keys cols r k : k ∈ keys r -> k ∈ add_labels cols r.
Proof.
  unfold add_labels. generalize (keys r) as ks. intros ks. revert cols.
  induction ks as [|k0 ks IH]; intros cols Hk; cbn.
  - by apply elem_of_nil in Hk.
  - apply elem_of_cons in Hk as [->|Hk]; [|by apply IH].
    assert (Hin : k0 ∈ (if mem k0 cols then cols else cols ++ [k0])).
    { destruct (mem k0 cols) eqn:E; [by apply mem_elem_of|].
      apply elem_of_app. right. left. }
    clear IH. revert Hin. generalize (if mem k0 cols then cols else cols ++ [k0]).
    induction ks as [|k1 ks IH]; intros cs Hin; cbn; [done|].
    apply IH. destruct (mem k1 cs); [done|]. apply elem_of_app. by left.
Qed.

Lemma frame_columns_mono data cols k :
  k ∈ cols -> k ∈ fold_left add_labels data cols.
Proof.
  revert cols. induction data as [|r rest IH]; intros cols Hk; cbn; [done|].
  by apply IH, add_labels_mono.
Qed.

(** Every key of every record is a column of the frame. *)
Lemma frame_columns_keys data r k :
  r ∈ data -> k ∈ keys r -> k ∈ frame_columns data.
Proof.
  unfold frame_columns. generalize (@nil string) as cols.
  induction data as [|r0 rest IH]; intros cols Hr Hk; cbn.
  - by apply elem_of_nil in Hr.
  - apply elem_of_cons in Hr as [->|Hr]; [|by apply IH].
    by apply frame_columns_mono, add_labels_keys.
Qed.

Lemma index_of_Some k l i : index_of k l = Some i -> l !! i = Some k.
Proof.
  revert i. induction l as [|x r IH]; intros i; cbn; [done|].
  destruct (String.eqb_spec x k) as [->|Hne].
  - by intros [= <-].
  - destruct (index_of k r) as [j|]; cbn; [|done]. intros [= <-]. by apply IH.
Qed.

Lemma index_of_None k l : index_of k l = None -> k ∉ l.
Proof.
  induction l as [|x r IH]; cbn; [intros _ ?%elem_of_nil; done|].
  destruct (String.eqb_spec x k) as [->|Hne]; [done|].
  destruct (index_of k r) as [j|]; cbn; [done|]. intros _.
  apply not_elem_of_cons. split; [done|by apply IH].
Qed.

Lemma map_lookup_Some {A B} (f : A -> B) (l : list A) i x :
  l !! i = Some x -> map f l !! i = Some (f x).
Proof.
  revert i. induction l as [|y r IH]; intros [|i]; cbn; try done.
  - by intros [= ->].
  - apply IH.
Qed.

(** Reindexing the frame of a list of records looks the labels up in the
    records. *)
Lemma reindex_frame data cols :
  reindex (pd_DataFrame data) cols
  = {| columns := cols; rows := map (fun r => map (dict_get r) cols) data |}.
Proof.
  unfold reindex, pd_DataFrame. cbn [columns rows]. f_equal.
  rewrite map_map. apply map_ext_in. intros r Hr%list_elem_of_In.
  apply map_ext. intros c. unfold cell. cbn [columns].
  destruct (index_of c (frame_columns data)) as [i|] eqn:E.
  - apply index_of_Some in E. by rewrite (map_lookup_Some _ _ _ _ E).
  - apply index_of_None in E.
    symmetry. apply dict_get_None. intros Hk. apply E.
    by apply frame_columns_keys with (r := r).
Qed.

End TableFacts.

(** C10: the table of a run has exactly the eight columns of
    [columns_order]; each of its rows holds what the record has under these
    eight labels and nothing else, so a key outside them never shows in the
    table, while the record kept in the session still has it. *)
Theorem output_column_projection (files : list uploaded_file) (ss ss' : session_state)
    (st st' : env) (table : DataFrame) :
  run_script files ss st = (Return (ss', Some table), st') ->
  exists records,
    data ss' = Some records /\
    table = make_table records /\
    columns table = columns_order /\
    length (columns table) = 8%nat /\
    rows table = map (fun r => map (dict_get r) columns_order) records /\
    (forall before r after k v,
       records = before ++ dict_set r k v :: after ->
       mem k columns_order = false ->
       dict_get (dict_set r k v) k = Some v /\
       table = make_table (before ++ r :: after)).
Proof.
  intros (_ & _ & r & rs & Hdata & ->)%run_script_table.
  exists (r :: rs). unfold make_table. rewrite reindex_frame. cbn [columns rows].
  split_and!; try done.
  intros before r0 after k v -> Hk. split.
  - by rewrite dict_get_set, String.eqb_refl.
  - rewrite reindex_frame. f_equal. rewrite !map_app. cbn [map]. do 2 f_equal.
    apply map_ext_in. intros c Hc%list_elem_of_In. rewrite dict_get_set.
    destruct (String.eqb_spec k c) as [->|]; [|done].
    apply mem_elem_of in Hc. congruence.
Qed.

Lemma output_column_projection_witness :
  exists records,
    data {| data := Some [inv1_record]; uploaded_file_names := ["inv1.pdf"] |} = Some records /\
    inv1_table = make_table records /\
    columns inv1_table = columns_order /\
    length (columns inv1_table) = 8%nat /\
    rows inv1_table = map (fun r => map (dict_get r) columns_order) records /\
    (forall before r after k v,
       records = before ++ dict_set r k v :: after ->
       mem k columns_order = false ->
       dict_get (dict_set r k v) k = Some v /\
       inv1_table = make_table (before ++ r :: after)).
Proof.
  apply (output_column_projection [inv1_pdf] initial_session
           {| data := Some [inv1_record]; uploaded_file_names := ["inv1.pdf"] |}
           env0 (snd (run_script [inv1_pdf] initial_session env0)) inv1_table).
  vm_compute. reflexivity.
Defined.

(** A raw key outside the table, here [notes], stays in the record as
    [NOTES] and is absent from the table. *)
Example unmapped_key_kept_in_record_only :
  let d : record := [("invoice no.", JString "A100"); ("notes", JString "paid")] in
  let r := tagged "inv1.pdf" d in
  dict_get r "NOTES" = Some (JString "paid") /\
  make_table [r]
  = {| columns := columns_order;
       rows := [ [ Some (JString "A100"); None; None; None; None; None; None;
                   Some (JString "inv1.pdf") ] ] |}.
Proof. cbn zeta. split; vm_compute; reflexivity. Qed.

(** ** End to end *)

(** C9: one upload named inv1.pdf whose first page rasterises and whose
    model call answers with the scenario's text: the run offers a table of
    one row with INVOICE_NO A100, INVOICE_DATE 2024-01-05, INVOICE_TOTAL
    250.00, pdf_file inv1.pdf and the four other columns empty. *)
Theorem end_to_end_inv1 (image : string) (images : list string)
    (later : nat -> attempt_world) (st : env) :
  let W := fun attempt : nat =>
             match attempt with
             | O => {| pages := Some (image :: images); reply := Some inv1_reply |}
             | S n => later n
             end in
  exists st',
    run_script [ {| name := "inv1.pdf"; external := W |} ] initial_session st
    = (Return ({| data := Some [inv1_record]; uploaded_file_names := ["inv1.pdf"] |},
               Some inv1_table), st') /\
    model_calls st' = S (model_calls st).
Proof.
  intros W.
  destruct (run_script_fresh [ {| name := "inv1.pdf"; external := W |} ] st)
    as (st' & Hrun & _ & Hm & _); [done|].
  exists st'. rewrite Hrun, Hm. clear Hrun Hm. split.
  - reflexivity.
  - assert (batch_model_calls [ {| name := "inv1.pdf"; external := W |} ] = 1%nat) as ->
      by reflexivity.
    lia.
Qed.

(** The second scenario: two uploads, one of whose model calls always raise.
    The run ends with one record, for the other document, after four model
    calls, and the failure is reported. *)
Example two_documents_one_failing :
  fst (run_script [scan_pdf; inv1_pdf] initial_session env0)
  = Return ({| data := Some [inv1_record]; uploaded_file_names := ["inv1.pdf"; "scan.pdf"] |},
            Some inv1_table) /\
  model_calls (snd (run_script [scan_pdf; inv1_pdf] initial_session env0)) = 4%nat /\
  ui (snd (run_script [scan_pdf; inv1_pdf] initial_session env0))
  = [ Found 2; Processing "scan.pdf";
      AttemptWarning "scan.pdf" 1 APIError; Retrying "scan.pdf" 5;
      AttemptWarning "scan.pdf" 2 APIError; Retrying "scan.pdf" 5;
      AttemptWarning "scan.pdf" 3 APIError; AllRetriesFailed "scan.pdf";
      Failed; Progress 1 2; Processing "inv1.pdf"; Progress 2 2;
      AllProcessed; Complete ].
Proof. repeat split; vm_compute; reflexivity. Qed.

(** * Further properties *)

(** ** Field Normalizer: what the key lookup ignores *)

Section KeyLookupFacts.
Import PyStr PyStrFacts.

Lemma lstrip_app_space ws s : all_space ws = true -> lstrip (ws +:+ s) = lstrip s.
Proof.
  induction ws as [|c r IH]; [done|]. rewrite app_cons. cbn.
  intros [-> Hr]%andb_prop. by apply IH.
Qed.

Lemma rstrip_all_space ws : all_space ws = true -> rstrip ws = EmptyString.
Proof.
  induction ws as [|c r IH]; [done|]. cbn.
  intros [-> Hr]%andb_prop. by rewrite IH.
Qed.

Lemma rstrip_app_space s ws : all_space ws = true -> rstrip (s +:+ ws) = rstrip s.
Proof.
  intros Hws. induction s as [|c r IH].
  - rewrite app_nil_l'. by apply rstrip_all_space.
  - rewrite app_cons. cbn. by rewrite IH.
Qed.

Lemma lstrip_app s ws :
  lstrip (s +:+ ws) =
  match lstrip s with
  | EmptyString => lstrip ws
  | String c r => String c r +:+ ws
  end.
Proof.
  induction s as [|c r IH]; [by rewrite app_nil_l'|].
  rewrite app_cons. cbn. by destruct (isspace c).
Qed.

(** White space around a key does not count. *)
Lemma strip_padded ws s ws' :
  all_space ws = true -> all_space ws' = true -> strip (ws +:+ s +:+ ws') = strip s.
Proof.
  intros Hws Hws'. unfold strip. rewrite lstrip_app_space by done.
  rewrite lstrip_app. destruct (lstrip s) as [|c r].
  - replace (lstrip ws') with EmptyString; [done|].
    symmetry. clear -Hws'. induction ws' as [|c r IH]; [done|]. cbn in *.
    apply andb_prop in Hws' as [-> Hr]. by apply IH.
  - by apply rstrip_app_space.
Qed.

Lemma field_name_mapping_lookup raw canonical :
  (raw, canonical) ∈ field_name_mapping ->
  dict_get field_name_mapping raw = Some canonical /\
  upper (strip raw) = raw.
Proof.
  intros Hin%list_elem_of_In. cbn in Hin.
  repeat (destruct Hin as [[= <- <-]|Hin]; [split; reflexivity|]). done.
Qed.

End KeyLookupFacts.

(** X1: the key lookup ignores white space around a raw key and the case of
    its ASCII letters: such keys are renamed alike, and a key that spells a
    raw name of the table in any case, with any padding, gets that name's
    canonical field. *)
Theorem normalized_key_insensitive (ws ws' k k' raw canonical : string) :
  all_space ws = true ->
  all_space ws' = true ->
  (PyStr.upper k = PyStr.upper k' ->
   normalized_key (ws +:+ k +:+ ws') = normalized_key k') /\
  ((raw, canonical) ∈ field_name_mapping ->
   PyStr.upper k = raw ->
   normalized_key (ws +:+ k +:+ ws') = canonical).
Proof.
  intros Hws Hws'.
  assert (Hpad : PyStr.upper (PyStr.strip (ws +:+ k +:+ ws'))
                 = PyStr.strip (PyStr.upper k)).
  { by rewrite strip_padded, PyStrFacts.strip_upper. }
  split.
  - intros Hk. unfold normalized_key.
    by rewrite Hpad, Hk, PyStrFacts.strip_upper.
  - intros [Hget Hraw]%field_name_mapping_lookup Hk. unfold normalized_key.
    rewrite Hpad, Hk.
    assert (PyStr.strip raw = raw) as ->.
    { rewrite <- Hraw at 1. rewrite <- PyStrFacts.strip_upper, PyStrFacts.strip_idem.
      by rewrite PyStrFacts.strip_upper. }
    by rewrite Hget.
Qed.

Lemma normalized_key_insensitive_witness :
  normalized_key ("  " +:+ "Invoice No." +:+ String "009" " ") = normalized_key "INVOICE no." /\
  normalized_key ("  " +:+ "po#" +:+ String "009" " ") = "PO_NUMBER".
Proof.
  split.
  - apply (normalized_key_insensitive "  " (String "009" " ") "Invoice No." "INVOICE no."
             "" ""); reflexivity.
  - apply (normalized_key_insensitive "  " (String "009" " ") "po#" "" "PO#" "PO_NUMBER");
      try reflexivity.
    apply list_elem_of_In. cbn. tauto.
Defined.

(** ** Field Normalizer: where the output's keys and values come from *)

Section NormalizerOrigin.

Lemma dict_set_keys_mem {V} (d : dict V) k v :
  keys (dict_set d k v) = if mem k (keys d) then keys d else keys d ++ [k].
Proof.
  rewrite dict_set_keys. destruct (mem k (keys d)) eqn:E.
  - apply mem_elem_of in E. by rewrite decide_True.
  - rewrite decide_False; [done|]. intros Hin%mem_elem_of. congruence.
Qed.

Lemma normalize_fold_keys d acc :
  keys (fold_left (fun (normalized_dict : record) (kv : string * json) =>
                     dict_set normalized_dict (normalized_key (fst kv)) (snd kv)) d acc)
  = fold_left (fun seen k => if mem k seen then seen else seen ++ [k])
              (map normalized_key (keys d)) (keys acc).
Proof.
  revert acc. induction d as [|[k v] r IH]; intros acc; [done|].
  cbn [fold_left]. rewrite IH. cbn [keys map fst snd fold_left].
  by rewrite dict_set_keys_mem.
Qed.

Lemma dict_get_Some_elem {V} (d : dict V) k v : dict_get d k = Some v -> (k, v) ∈ d.
Proof.
  induction d as [|[k0 v0] r IH]; cbn; [done|].
  destruct (String.eqb_spec k0 k) as [->|Hne].
  - intros [= ->]. left.
  - intros Hv. right. by apply IH.
Qed.

Lemma normalize_keys_origin d k :
  k ∈ keys (normalize_field_names d) -> exists raw, raw ∈ keys d /\ k = normalized_key raw.
Proof.
  intros Hk. destruct (dict_get (normalize_field_names d) k) as [v|] eqn:E.
  - rewrite normalize_get in E. apply dict_get_Some_elem in E.
    apply list_elem_of_In, in_rev, in_map_iff in E as ([raw v'] & [= <- <-] & Hin).
    exists raw. split; [|done].
    apply list_elem_of_In, in_map_iff. exists (raw, v'). by split.
  - by apply dict_get_None in E.
Qed.

End NormalizerOrigin.

(** X2: the keys of the normalised mapping are the renamed input keys, each
    once, in the order in which they first appear; no key is invented or
    lost, and every value of the output is the value of an input entry whose
    key is renamed to the key it sits under. *)
Theorem normalizer_keys_and_values (d : record) :
  keys (normalize_field_names d) = first_seen (map normalized_key (keys d)) /\
  (forall k, k ∈ keys (normalize_field_names d) <->
             exists raw, raw ∈ keys d /\ k = normalized_key raw) /\
  (forall k v, dict_get (normalize_field_names d) k = Some v ->
               exists raw, (raw, v) ∈ d /\ normalized_key raw = k).
Proof.
  split_and!.
  - unfold normalize_field_names, first_seen. by rewrite normalize_fold_keys.
  - intros k. split.
    + apply normalize_keys_origin.
    + intros (raw & Hraw & ->).
      by apply normalize_fold_keys_in.
  - intros k v Hv. rewrite normalize_get in Hv. apply dict_get_Some_elem in Hv.
    apply list_elem_of_In, in_rev, in_map_iff in Hv as ([raw v'] & [= <- <-] & Hin).
    exists raw. split; [by apply list_elem_of_In|done].
Qed.

(** ** The shape of a record *)

Section RecordShape.
Import PyStr.

Lemma upper_char_not_p c : upper_char c <> "p"%char.
Proof. destruct c as [[] [] [] [] [] [] [] []]; vm_compute; discriminate. Qed.

Lemma upper_not_pdf_file s : upper s <> "pdf_file".
Proof.
  destruct s as [|c r]; [done|]. cbn. intros [= Hc _]. by apply upper_char_not_p in Hc.
Qed.

(** No raw key is renamed to [pdf_file]. *)
Lemma normalized_key_not_pdf_file raw : normalized_key raw <> "pdf_file".
Proof.
  unfold normalized_key.
  destruct (dict_get field_name_mapping (upper (strip raw))) as [c|] eqn:E.
  - revert E. unfold field_name_mapping. cbn [dict_get].
    repeat (destruct (String.eqb _ _); [intros [= <-]; discriminate|]). discriminate.
  - apply upper_not_pdf_file.
Qed.

Lemma normalize_no_pdf_file d : "pdf_file" ∉ keys (normalize_field_names d).
Proof.
  intros Hin.
  destruct (dict_get (normalize_field_names d) "pdf_file") as [v|] eqn:E.
  - rewrite normalize_get in E. apply dict_get_Some_elem in E.
    apply list_elem_of_In, in_rev, in_map_iff in E as ([raw v'] & [= Hraw _] & _).
    by apply normalized_key_not_pdf_file in Hraw.
  - by apply dict_get_None in E.
Qed.

(** The document name goes to the end of the record and overwrites nothing. *)
Lemma tagged_append pdf_file d :
  tagged pdf_file d = normalize_field_names d ++ [("pdf_file", JString pdf_file)].
Proof. unfold tagged. apply dict_set_fresh, normalize_no_pdf_file. Qed.

Lemma attempt_outcome_origin w pdf_file r :
  attempt_outcome w pdf_file = Return r ->
  exists d response_text,
    reply w = Some response_text /\
    extract_json response_text = Return (JObject d) /\
    r = tagged pdf_file d.
Proof.
  unfold attempt_outcome. repeat case_match; try done. intros [= <-]. eauto.
Qed.

Lemma first_success_origin W pdf_file remaining attempt r :
  first_success W pdf_file remaining attempt = Some r ->
  exists i d response_text,
    (attempt <= i < attempt + remaining)%nat /\
    reply (W i) = Some response_text /\
    extract_json response_text = Return (JObject d) /\
    r = tagged pdf_file d.
Proof.
  revert attempt. induction remaining as [|remaining IH]; intros attempt; cbn; [done|].
  destruct (attempt_outcome (W attempt) pdf_file) as [r'|e] eqn:E.
  - intros [= <-]. apply attempt_outcome_origin in E as (d & text & Hr & Hd & ->).
    exists attempt, d, text. split_and!; try done; lia.
  - intros (i & d & text & Hi & Hrest)%IH. exists i, d, text. split; [lia|done].
Qed.

End RecordShape.

(** X3: every record [process_pdf] returns is the normalised object of a
    reply received at one of its attempts, followed by the entry [pdf_file]
    with the document's name.  That entry never overwrites an extracted
    field, since no raw key is renamed to [pdf_file]; the record has no
    repeated key, and each of its other keys is left alone by a second
    renaming. *)
Theorem record_shape (W : nat -> attempt_world) (pdf_file : string)
    (max_retries retry_delay : Z) (st st' : env) (r : record) :
  process_pdf W pdf_file max_retries retry_delay st = (Return (Some r), st') ->
  exists (i : nat) (d : record) (response_text : string),
    Z.of_nat i < max_retries /\
    reply (W i) = Some response_text /\
    extract_json response_text = Return (JObject d) /\
    r = normalize_field_names d ++ [("pdf_file", JString pdf_file)] /\
    NoDup (keys r) /\
    (forall k, k ∈ keys (normalize_field_names d) ->
               normalized_key k = k /\ k <> "pdf_file").
Proof.
  intros Hrun.
  destruct (process_pdf_run W pdf_file max_retries retry_delay st) as (st1 & Hrun' & _).
  rewrite Hrun in Hrun'. injection Hrun' as Hfirst _.
  symmetry in Hfirst.
  apply first_success_origin in Hfirst as (i & d & text & Hi & Hreply & Hd & ->).
  exists i, d, text. rewrite tagged_append. split_and!; try done.
  - lia.
  - unfold keys. rewrite map_app. apply NoDup_app. split_and!.
    + apply normalize_NoDup.
    + intros k Hk [->|[]%elem_of_nil]%elem_of_cons. by apply normalize_no_pdf_file in Hk.
    + apply NoDup_singleton.
  - intros k Hk. split.
    + apply normalize_keys_origin in Hk as (raw & _ & ->). apply normalized_key_idem.
    + intros ->. by apply normalize_no_pdf_file in Hk.
Qed.

Lemma record_shape_witness :
  exists (i : nat) (d : record) (response_text : string),
    Z.of_nat i < 3 /\
    reply (flaky_model 0 i) = Some response_text /\
    extract_json response_text = Return (JObject d) /\
    inv1_record = normalize_field_names d ++ [("pdf_file", JString "inv1.pdf")] /\
    NoDup (keys inv1_record) /\
    (forall k, k ∈ keys (normalize_field_names d) ->
               normalized_key k = k /\ k <> "pdf_file").
Proof.
  apply (record_shape (flaky_model 0) "inv1.pdf" 3 5 env0
           (snd (process_pdf (flaky_model 0) "inv1.pdf" 3 5 env0)) inv1_record).
  vm_compute. reflexivity.
Defined.

(** ** The match of the response parser *)

Section SearchFacts.
Import Re.

Lemma occurs_app c a b : occurs c (a +:+ b) = occurs c a || occurs c b.
Proof.
  induction a as [|x a IH]; [done|]. rewrite app_cons. cbn.
  by rewrite IH, orb_assoc.
Qed.

Lemma dotstar_close_none_inv s : dotstar_close s = None -> occurs "}" s = false.
Proof.
  induction s as [|c r IH]; cbn; [done|].
  destruct (dotstar_close r); [done|]. rewrite IH by done.
  by destruct (Ascii.eqb c "}").
Qed.

Lemma dotstar_close_inv_last s m :
  dotstar_close s = Some m ->
  exists mid post, m = mid +:+ "}" /\ s = m +:+ post /\ occurs "}" post = false.
Proof.
  revert m. induction s as [|c r IH]; intros m; cbn; [done|].
  destruct (dotstar_close r) as [m'|] eqn:E.
  - intros [= <-]. destruct (IH m' eq_refl) as (mid & post & -> & Hr & Hpost).
    exists (String c mid), post. rewrite !app_cons. split; [done|].
    split; [by rewrite Hr at 1|done].
  - destruct (Ascii.eqb_spec c "}") as [->|]; [|done].
    intros [= <-]. exists EmptyString, r. split_and!; try done.
    by apply dotstar_close_none_inv.
Qed.

Lemma search_inv_first s m :
  search s = Some m ->
  exists pre mid post,
    s = pre +:+ "{" +:+ mid +:+ "}" +:+ post /\ m = "{" +:+ mid +:+ "}" /\
    occurs "{" pre = false /\ occurs "}" post = false.
Proof.
  induction s as [|c r IH]; cbn; [done|].
  destruct (Ascii.eqb_spec c "{") as [->|Hc].
  - destruct (dotstar_close r) as [m'|] eqn:E; cbn.
    + intros [= <-].
      destruct (dotstar_close_inv_last _ _ E) as (mid & post & -> & Hr & Hpost).
      exists EmptyString, mid, post. rewrite app_nil_l'. split_and!; try done.
      rewrite Hr at 1. by rewrite append_assoc'.
    + intros Hm. apply dotstar_close_none_inv in E.
      destruct (search_inv _ _ Hm) as (pre & mid & post & -> & ->).
      rewrite !occurs_app in E. cbn in E.
      rewrite orb_true_r in E. cbn in E. by rewrite orb_true_r in E.
  - intros (pre & mid & post & -> & -> & Hpre & Hpost)%IH.
    exists (String c pre), mid, post. split_and!; try done.
    cbn. rewrite Hpre. by apply Ascii.eqb_neq in Hc as ->.
Qed.

End SearchFacts.

(** X4: the regular expression finds a match exactly when the text has an
    opening brace with a closing brace after it, and the match is then the
    span from the first opening brace of the text to its last closing
    brace. *)
Theorem search_first_to_last (text m : string) :
  (Re.search text = Some m <->
   exists pre mid post,
     text = pre +:+ "{" +:+ mid +:+ "}" +:+ post /\ m = "{" +:+ mid +:+ "}" /\
     occurs "{" pre = false /\ occurs "}" post = false) /\
  (Re.search text = None <-> ~ brace_pair text).
Proof.
  split; split.
  - apply search_inv_first.
  - intros (pre & mid & post & -> & -> & Hpre & Hpost). by apply search_span.
  - intros Hnone Hpair%search_some. rewrite Hnone in Hpair. by destruct Hpair.
  - apply search_none.
Qed.

(** ** How an attempt fails *)



(** X6: an attempt shows the parse warning and the raw reply exactly when the
    brace-to-brace span of the reply does not decode; in every other case,
    success or failure, the attempt itself shows nothing. *)
Theorem attempt_messages (w : attempt_world) (pdf_file : string) (attempt : Z) (st : env) :
  (forall response_text,
     decode_fails w response_text ->
     ui (snd (attempt_body w pdf_file attempt st))
     = ui st ++ [ParseWarning pdf_file (attempt + 1); ResponseText response_text]) /\
  (~ (exists response_text, decode_fails w response_text) ->
   ui (snd (attempt_body w pdf_file attempt st)) = ui st).
Proof.
  unfold decode_fails, reaches_model, attempt_body, parse_response, items, extract_json.
  run. destruct (pages w) as [[|image images]|]; cbn.
  1,3: split; [by intros ? (? & _)|done].
  rewrite image_saved. destruct (reply w) as [response_text|]; cbn.
  2: split; [by intros ? (_ & ? & _)|done].
  destruct (Re.search response_text) as [json_str|] eqn:Es; cbn.
  - destruct (json_loads json_str) as [v|] eqn:El; cbn.
    + split.
      * intros text (_ & [= <-] & m & Hm & Hl). congruence.
      * intros _. destruct v; cbn; rewrite ?image_saved; done.
    + split.
      * intros text (_ & [= <-] & _). by rewrite <- app_assoc.
      * intros Hno. exfalso. apply Hno. exists response_text. eauto.
  - split; [|done]. intros text (_ & [= <-] & m & Hm & _). congruence.
Qed.

Lemma attempt_messages_witness :
  ui (snd (attempt_body {| pages := Some ["page-1.png"]; reply := Some "{oops}" |}
             "scan.pdf" 0 env0))
  = ui env0 ++ [ParseWarning "scan.pdf" (0 + 1); ResponseText "{oops}"].
Proof.
  apply (attempt_messages {| pages := Some ["page-1.png"]; reply := Some "{oops}" |}
           "scan.pdf" 0 env0).
  split; [reflexivity|]. split; [reflexivity|]. exists "{oops}". split; reflexivity.
Defined.

(** ** Messages and sleeps of the retry loop *)

Section TraceFacts.

Lemma attempt_body_events w pdf_file attempt st :
  exists evs,
    ui (snd (attempt_body w pdf_file attempt st)) = ui st ++ evs /\
    Forall (fun ev => attempt_level ev = true) evs /\
    slept (snd (attempt_body w pdf_file attempt st)) = slept st.
Proof.
  unfold attempt_body, parse_response, items.
  run. destruct (pages w) as [[|image images]|]; cbn.
  1,3: exists []; by rewrite app_nil_r.
  rewrite image_saved. destruct (reply w) as [response_text|]; cbn.
  2: exists []; by rewrite app_nil_r.
  destruct (extract_json response_text) as [[]|[]] eqn:E; cbn; rewrite ?image_saved; cbn.
  all: try (exists []; by rewrite app_nil_r).
  exists [ParseWarning pdf_file (attempt + 1); ResponseText response_text].
  rewrite <- app_assoc. split_and!; try done. by repeat constructor.
Qed.

Lemma attempts_run_length W pdf_file remaining attempt :
  (length (attempts_run W pdf_file remaining attempt) <= remaining)%nat /\
  (remaining <> O -> (1 <= length (attempts_run W pdf_file remaining attempt))%nat).
Proof.
  revert attempt. induction remaining as [|remaining IH]; intros attempt; cbn; [lia|].
  destruct (attempt_outcome (W attempt) pdf_file); cbn; [lia|].
  destruct (IH (S attempt)). lia.
Qed.

(** The loop shows messages of its own kind only, and sleeps once between
    two attempts. *)
Lemma process_pdf_from_events W pdf_file max_retries retry_delay remaining attempt st :
  Z.of_nat (attempt + remaining) = max_retries ->
  (exists evs,
     ui (snd (process_pdf_from W pdf_file max_retries retry_delay remaining attempt st))
     = ui st ++ evs /\
     Forall (fun ev => attempt_level ev = true) evs) /\
  slept (snd (process_pdf_from W pdf_file max_retries retry_delay remaining attempt st))
  = slept st
    + retry_delay * Z.of_nat (pred (length (attempts_run W pdf_file remaining attempt))).
Proof.
  revert attempt st. induction remaining as [|remaining IH]; intros attempt st Hmax.
  - cbn. split; [|lia]. exists []. by rewrite app_nil_r.
  - destruct (attempt_body_spec (W attempt) pdf_file (Z.of_nat attempt) st)
      as (st1 & Hrun & _).
    destruct (attempt_body_events (W attempt) pdf_file (Z.of_nat attempt) st)
      as (evs1 & Hui1 & Hevs1 & Hslept1).
    rewrite Hrun in Hui1, Hslept1. cbn [snd] in Hui1, Hslept1.
    cbn [attempts_run].
    destruct (attempt_outcome (W attempt) pdf_file) as [extracted_data|e] eqn:Ho.
    + assert (Hstep :
        process_pdf_from W pdf_file max_retries retry_delay (S remaining) attempt st
        = (Return (Some extracted_data), st1)).
      { cbn [process_pdf_from]. unfold try_except, mbind, M_bind, bind. by rewrite Hrun. }
      rewrite Hstep. cbn. split; [eauto|]. rewrite Hslept1. lia.
    + destruct (Z.ltb_spec (Z.of_nat attempt) (max_retries - 1)) as [Hlt|Hge].
      * set (st2 := {| fs := fs st1; raster_calls := raster_calls st1;
                       model_calls := model_calls st1;
                       slept := slept st1 + retry_delay;
                       ui := (ui st1 ++ [AttemptWarning pdf_file (Z.of_nat attempt + 1) e])
                               ++ [Retrying pdf_file retry_delay] |}).
        assert (Hstep :
          process_pdf_from W pdf_file max_retries retry_delay (S remaining) attempt st
          = process_pdf_from W pdf_file max_retries retry_delay remaining (S attempt) st2).
        { cbn [process_pdf_from]. unfold try_except at 1.
          unfold mbind at 1, M_bind at 1, bind at 1. rewrite Hrun.
          apply Z.ltb_lt in Hlt. rewrite Hlt. run. reflexivity. }
        rewrite Hstep.
        destruct (IH (S attempt) st2) as [(evs & Hui & Hevs) Hslept]; [lia|].
        split.
        -- exists (evs1 ++ [AttemptWarning pdf_file (Z.of_nat attempt + 1) e;
                            Retrying pdf_file retry_delay] ++ evs).
           rewrite Hui. subst st2. cbn [ui]. rewrite Hui1. split.
           ++ by rewrite <- !app_assoc.
           ++ apply Forall_app. split; [done|]. by repeat constructor.
        -- rewrite Hslept. subst st2. cbn [slept]. rewrite Hslept1.
           destruct (attempts_run_length W pdf_file remaining (S attempt)) as [_ Hpos].
           assert (remaining <> O) as Hrem by lia. specialize (Hpos Hrem).
           cbn [length]. destruct (length (attempts_run W pdf_file remaining (S attempt)));
             [lia|]. cbn [pred]. lia.
      * assert (remaining = O) as -> by lia.
        assert (Hstep :
          process_pdf_from W pdf_file max_retries retry_delay 1 attempt st
          = (Return None,
             {| fs := fs st1; raster_calls := raster_calls st1;
                model_calls := model_calls st1; slept := slept st1;
                ui := (ui st1 ++ [AttemptWarning pdf_file (Z.of_nat attempt + 1) e])
                        ++ [AllRetriesFailed pdf_file] |})).
        { cbn [process_pdf_from]. unfold try_except at 1.
          unfold mbind at 1, M_bind at 1, bind at 1. rewrite Hrun.
          apply Z.ltb_ge in Hge. rewrite Hge. run. reflexivity. }
        rewrite Hstep. cbn [attempts_run length pred snd ui slept]. split.
        -- exists (evs1 ++ [AttemptWarning pdf_file (Z.of_nat attempt + 1) e;
                            AllRetriesFailed pdf_file]).
           rewrite Hui1. split; [by rewrite <- !app_assoc|].
           apply Forall_app. split; [done|]. by repeat constructor.
        -- rewrite Hslept1. lia.
Qed.

Lemma process_pdf_events W pdf_file max_retries retry_delay st :
  (exists evs,
     ui (snd (process_pdf W pdf_file max_retries retry_delay st)) = ui st ++ evs /\
     Forall (fun ev => attempt_level ev = true) evs) /\
  slept (snd (process_pdf W pdf_file max_retries retry_delay st))
  = slept st
    + retry_delay
      * Z.of_nat (pred (length (attempts_run W pdf_file (Z.to_nat max_retries) 0))).
Proof.
  unfold process_pdf. destruct (Z.le_gt_cases 0 max_retries) as [Hpos|Hneg].
  - apply process_pdf_from_events. lia.
  - replace (Z.to_nat max_retries) with O by lia. cbn. split; [|lia].
    exists []. by rewrite app_nil_r.
Qed.

End TraceFacts.

Section BatchTraceFacts.

Lemma fails_all_retries_result file :
  fails_all_retries file = match document_result file with None => true | Some _ => false end.
Proof.
  destruct (document_result file) eqn:E.
  - destruct (fails_all_retries file) eqn:F; [|done].
    apply document_result_none in F. congruence.
  - by apply document_result_none.
Qed.

(** What the batch loop shows: its own status messages, in between them the
    messages of [process_pdf]. *)
Lemma process_files_events files idx total_files data st :
  exists evs,
    ui (snd (process_files files idx total_files data st)) = ui st ++ evs /\
    List.filter is_status evs = status_events files idx total_files /\
    Forall (fun ev => is_status ev = true \/ attempt_level ev = true) evs.
Proof.
  revert idx data st. induction files as [|file rest IH]; intros idx data st.
  - exists []. cbn. by rewrite app_nil_r.
  - set (st0 := {| fs := fs st; raster_calls := raster_calls st;
                   model_calls := model_calls st; slept := slept st;
                   ui := ui st ++ [Processing (name file)] |}).
    destruct (process_pdf_spec file st0) as (st1 & Hrun & _).
    destruct (process_pdf_events (external file) (name file) default_max_retries
                default_retry_delay st0) as [(evs1 & Hui1 & Hevs1) _].
    rewrite Hrun in Hui1. cbn [snd] in Hui1. subst st0. cbn [ui] in Hui1.
    assert (Hfilter1 : List.filter is_status evs1 = []).
    { clear -Hevs1. induction Hevs1 as [|ev evs Hev _ IH]; [done|].
      cbn. rewrite IH. by destruct ev. }
    cbn [status_events]. rewrite fails_all_retries_result.
    destruct (document_result file) as [extracted_data|] eqn:Hres.
    + set (st2 := {| fs := fs st1; raster_calls := raster_calls st1;
                     model_calls := model_calls st1; slept := slept st1;
                     ui := ui st1 ++ [Progress (S idx) total_files] |}).
      destruct (IH (S idx) (data ++ [extracted_data]) st2) as (evs & Hui & Hfilter & Hevs).
      assert (Hstep : process_files (file :: rest) idx total_files data st
                      = process_files rest (S idx) total_files (data ++ [extracted_data]) st2).
      { cbn [process_files]. run. rewrite Hrun. reflexivity. }
      rewrite Hstep, Hui. subst st2. cbn [ui]. rewrite Hui1.
      exists (Processing (name file) :: evs1 ++ Progress (S idx) total_files :: evs).
      split_and!.
      * repeat (rewrite <- app_assoc; cbn [app]). reflexivity.
      * cbn. rewrite List.filter_app, Hfilter1. cbn. by rewrite Hfilter.
      * constructor; [by left|]. apply Forall_app. split.
        -- eapply Forall_impl; [exact Hevs1|]. cbn. by right.
        -- constructor; [by left|done].
    + set (st2 := {| fs := fs st1; raster_calls := raster_calls st1;
                     model_calls := model_calls st1; slept := slept st1;
                     ui := (ui st1 ++ [Failed]) ++ [Progress (S idx) total_files] |}).
      destruct (IH (S idx) data st2) as (evs & Hui & Hfilter & Hevs).
      assert (Hstep : process_files (file :: rest) idx total_files data st
                      = process_files rest (S idx) total_files data st2).
      { cbn [process_files]. run. rewrite Hrun. reflexivity. }
      rewrite Hstep, Hui. subst st2. cbn [ui]. rewrite Hui1.
      exists (Processing (name file) :: evs1 ++ Failed :: Progress (S idx) total_files :: evs).
      split_and!.
      * repeat (rewrite <- app_assoc; cbn [app]). reflexivity.
      * cbn. rewrite List.filter_app, Hfilter1. cbn. by rewrite Hfilter.
      * constructor; [by left|]. apply Forall_app. split.
        -- eapply Forall_impl; [exact Hevs1|]. cbn. by right.
        -- constructor; [by left|]. constructor; [by left|done].
Qed.

End BatchTraceFacts.

Section RunTraceFacts.
Import PyStr.

Lemma save_uploads_ui files pdf_files st :
  ui (snd (save_uploads files pdf_files st)) = ui st.
Proof.
  revert pdf_files st. induction files as [|file rest IH]; intros pdf_files st; [done|].
  cbn [save_uploads]. unfold mbind, M_bind, bind, write_file. cbn. by rewrite IH.
Qed.

Lemma batch_calls_bound files :
  (batch_raster_calls files <= 3 * length files)%nat /\
  (batch_model_calls files <= batch_raster_calls files)%nat.
Proof.
  unfold batch_raster_calls, batch_model_calls.
  induction files as [|f rest [IHr IHm]]; [cbn; lia|]. cbn [map sum_list length].
  assert (Hle : (length (attempts_of f) <= 3)%nat)
    by apply (attempts_run_length (external f) (name f) 3 0).
  assert (model_calls_of (external f) (attempts_of f) <= length (attempts_of f))%nat.
  { unfold model_calls_of. apply List.filter_length_le. }
  lia.
Qed.

(** The messages of a batch that is processed. *)
Lemma process_batch_events files ss st :
  files <> [] ->
  exists evs,
    ui (snd (process_batch files ss st))
    = ui st ++ Found (length files) :: evs
        ++ AllProcessed :: match batch_records files with
                           | [] => [NoDataExtracted]
                           | _ :: _ => []
                           end /\
    List.filter is_status evs = status_events files 0 (length files) /\
    Forall (fun ev => is_status ev = true \/ attempt_level ev = true) evs.
Proof.
  intros Hfiles. unfold process_batch, with_temporary_directory.
  destruct (save_uploads_spec files [] (set_fs (fun _ => ∅) st)) as (sa & Hsave & _).
  pose proof (save_uploads_ui files [] (set_fs (fun _ => ∅) st)) as Hua.
  rewrite Hsave in Hua. cbn [snd app] in Hua, Hsave.
  set (sb := {| fs := fs sa; raster_calls := raster_calls sa; model_calls := model_calls sa;
                slept := slept sa; ui := ui sa ++ [Found (length files)] |}).
  destruct (process_files_spec files 0 (length files) [] sb) as (sc & Hloop & _).
  destruct (process_files_events files 0 (length files) [] sb) as (evs & Hui & Hfilter & Hevs).
  rewrite Hloop in Hui. cbn [snd app] in Hui, Hloop. subst sb. cbn [ui] in Hui.
  exists evs. split; [|done].
  run. rewrite Hsave. rewrite length_map.
  destruct files as [|file rest]; [done|]. cbn [map].
  cbn [ui fs raster_calls model_calls slept] in *. rewrite Hloop.
  destruct (batch_records (file :: rest)); cbn; rewrite Hui, Hua; cbn;
    repeat (rewrite <- app_assoc; cbn [app]); reflexivity.
Qed.

(** A run is one of three: without uploads nothing happens; with a valid
    cache, two messages are shown and nothing else changes; otherwise the
    batch is processed. *)
Lemma run_script_cases files ss st :
  (files = [] /\ run_script files ss st = (Return (ss, None), st)) \/
  (files <> [] /\
   exists d, data (refresh_cache files ss) = Some d /\
     run_script files ss st
     = (Return (refresh_cache files ss,
                match d with [] => None | r :: rs => Some (make_table (r :: rs)) end),
        {| fs := fs st; raster_calls := raster_calls st; model_calls := model_calls st;
           slept := slept st;
           ui := ui st ++ [UsingCached;
                           match d with [] => NoDataExtracted | _ :: _ => Complete end] |})) \/
  (files <> [] /\ data (refresh_cache files ss) = None /\
   exists st1,
     process_batch files (refresh_cache files ss) st
     = (Return (session_after (refresh_cache files ss) (batch_records files)), st1) /\
     run_script files ss st
     = (Return (session_after (refresh_cache files ss) (batch_records files),
                match batch_records files with
                | [] => None
                | r :: rs => Some (make_table (r :: rs))
                end),
        {| fs := fs st1; raster_calls := raster_calls st1; model_calls := model_calls st1;
           slept := slept st1;
           ui := ui st1 ++ [match batch_records files with
                            | [] => NoDataExtracted
                            | _ :: _ => Complete
                            end] |})).
Proof.
  destruct files as [|file rest]; [by left|]. right.
  unfold run_script.
  destruct (data (refresh_cache (file :: rest) ss)) as [d|] eqn:Hd.
  - left. split; [done|]. exists d. split; [done|]. run. rewrite Hd.
    destruct d; cbn; by rewrite <- app_assoc.
  - right. split; [done|]. split; [done|].
    destruct (process_batch_spec (file :: rest) (refresh_cache (file :: rest) ss) st)
      as (st1 & Hbatch & _).
    exists st1. split; [done|].
    unfold mbind at 1, M_bind at 1, bind at 1. rewrite Hbatch.
    destruct (batch_records (file :: rest)) as [|r rs]; cbn [session_after].
    + rewrite Hd. by run.
    + cbn [data]. by run.
Qed.

End RunTraceFacts.

(** X7: [process_pdf] sleeps [retry_delay] seconds once between two
    consecutive attempts and never after the last one: with [n >= 1] attempts
    made (one rasteriser call each) it has slept [(n - 1) * retry_delay]
    seconds.  With [max_retries <= 0] it makes no attempt at all: it returns
    no record and leaves everything as it was, without a message. *)
Theorem sleep_between_attempts (W : nat -> attempt_world) (pdf_file : string)
    (max_retries retry_delay : Z) (st : env) :
  (0 < max_retries ->
   (raster_calls st < raster_calls (snd (process_pdf W pdf_file max_retries retry_delay st)))%nat /\
   slept (snd (process_pdf W pdf_file max_retries retry_delay st))
   = slept st
     + retry_delay
       * (Z.of_nat (raster_calls (snd (process_pdf W pdf_file max_retries retry_delay st)))
          - Z.of_nat (raster_calls st) - 1)) /\
  (max_retries <= 0 ->
   process_pdf W pdf_file max_retries retry_delay st = (Return None, st)).
Proof.
  split.
  - intros Hmax.
    destruct (process_pdf_run W pdf_file max_retries retry_delay st) as (st' & Hrun & Hr & _).
    destruct (process_pdf_events W pdf_file max_retries retry_delay st) as [_ Hslept].
    rewrite Hslept, Hrun. cbn [snd]. rewrite Hr.
    destruct (attempts_run_length W pdf_file (Z.to_nat max_retries) 0) as [_ Hpos].
    assert (Z.to_nat max_retries <> O) as Hne by lia. specialize (Hpos Hne).
    split; [lia|]. f_equal. f_equal. lia.
  - intros Hmax. unfold process_pdf. by replace (Z.to_nat max_retries) with O by lia.
Qed.

Lemma sleep_between_attempts_witness :
  ((raster_calls env0 < raster_calls (snd (process_pdf dead_model "scan.pdf" 3 5 env0)))%nat /\
   slept (snd (process_pdf dead_model "scan.pdf" 3 5 env0))
   = slept env0
     + 5 * (Z.of_nat (raster_calls (snd (process_pdf dead_model "scan.pdf" 3 5 env0)))
            - Z.of_nat (raster_calls env0) - 1)) /\
  process_pdf dead_model "scan.pdf" 0 5 env0 = (Return None, env0).
Proof.
  split.
  - apply (sleep_between_attempts dead_model "scan.pdf" 3 5 env0). lia.
  - apply (sleep_between_attempts dead_model "scan.pdf" 0 5 env0). lia.
Defined.

(** X8: what a document and a batch can cost.  [process_pdf] calls the
    rasteriser at most [max_retries] times and the model at most once per
    rasteriser call; a run of the script calls the model at most three times
    per uploaded document, and never more often than the rasteriser. *)
Theorem call_bounds (W : nat -> attempt_world) (pdf_file : string)
    (max_retries retry_delay : Z) (files : list uploaded_file) (ss : session_state)
    (st : env) :
  (let st' := snd (process_pdf W pdf_file max_retries retry_delay st) in
   (raster_calls st <= raster_calls st' <= raster_calls st + Z.to_nat max_retries)%nat /\
   (model_calls st <= model_calls st')%nat /\
   (model_calls st' - model_calls st <= raster_calls st' - raster_calls st)%nat) /\
  (let st' := snd (run_script files ss st) in
   (raster_calls st <= raster_calls st' <= raster_calls st + 3 * length files)%nat /\
   (model_calls st <= model_calls st')%nat /\
   (model_calls st' - model_calls st <= raster_calls st' - raster_calls st)%nat).
Proof.
  split; cbn zeta.
  - destruct (process_pdf_run W pdf_file max_retries retry_delay st)
      as (st' & -> & Hr & Hm & _). cbn [snd].
    destruct (attempts_run_length W pdf_file (Z.to_nat max_retries) 0) as [Hle _].
    assert (model_calls_of W (attempts_run W pdf_file (Z.to_nat max_retries) 0)
            <= length (attempts_run W pdf_file (Z.to_nat max_retries) 0))%nat.
    { unfold model_calls_of. apply List.filter_length_le. }
    lia.
  - destruct (run_script_cases files ss st)
      as [[-> ->]|[(_ & d & _ & ->)|(_ & _ & st1 & Hbatch & ->)]]; cbn [snd raster_calls model_calls].
    + lia.
    + lia.
    + destruct (process_batch_spec files (refresh_cache files ss) st)
        as (st2 & Hbatch' & Hr & Hm & _).
      rewrite Hbatch in Hbatch'. injection Hbatch' as <-.
      destruct (batch_calls_bound files). lia.
Qed.

Section CleanupFacts.

Lemma first_success_last W pdf_file remaining attempt r :
  first_success W pdf_file remaining attempt = Some r ->
  exists l j r',
    attempts_run W pdf_file remaining attempt = l ++ [j] /\
    attempt_outcome (W j) pdf_file = Return r'.
Proof.
  revert attempt. induction remaining as [|remaining IH]; intros attempt; cbn; [done|].
  destruct (attempt_outcome (W attempt) pdf_file) as [r0|e] eqn:E.
  - intros _. exists [], attempt, r0. by split.
  - intros (l & j & r' & -> & Hj)%IH. exists (attempt :: l), j, r'. by split.
Qed.

Lemma attempt_files_frame w pdf_file files path :
  path ∈ files -> path <> temp_image_name pdf_file -> path ∈ attempt_files w pdf_file files.
Proof.
  intros Hin Hne. unfold attempt_files.
  destruct (pages w) as [images|]; [|done].
  destruct (reaches_model w).
  - destruct (attempt_outcome w pdf_file).
    + apply elem_of_difference. split.
      * apply elem_of_union. right. apply elem_of_union. by right.
      * by intros ?%elem_of_singleton.
    + apply elem_of_union. right. apply elem_of_union. by right.
  - apply elem_of_union. by right.
Qed.

Lemma files_after_frame W pdf_file attempts files path :
  path ∈ files -> path <> temp_image_name pdf_file ->
  path ∈ files_after W pdf_file attempts files.
Proof.
  unfold files_after. revert files.
  induction attempts as [|i rest IH]; intros files Hin Hne; [done|].
  cbn. apply IH; [|done]. by apply attempt_files_frame.
Qed.

End CleanupFacts.

(** X9: whenever [process_pdf] returns a record, the document's temp image
    has been removed from temp_dir, however many failed attempts came
    first. *)
Theorem returned_record_removes_image (W : nat -> attempt_world) (pdf_file : string)
    (max_retries retry_delay : Z) (st st' : env) (r : record) :
  process_pdf W pdf_file max_retries retry_delay st = (Return (Some r), st') ->
  temp_image_name pdf_file ∉ fs st'.
Proof.
  intros Hrun.
  destruct (process_pdf_run W pdf_file max_retries retry_delay st)
    as (st1 & Hrun' & _ & _ & Hfs & _).
  rewrite Hrun in Hrun'. injection Hrun' as Hfirst <-. symmetry in Hfirst.
  apply first_success_last in Hfirst as (l & j & r' & Hruns & Hj).
  rewrite Hfs, Hruns. unfold files_after. rewrite fold_left_app. cbn.
  apply returning_attempt_removes_image. eauto.
Qed.

Lemma returned_record_removes_image_witness :
  temp_image_name "inv1.pdf" ∉ fs (snd (process_pdf (flaky_model 2) "inv1.pdf" 3 5 env0)).
Proof.
  apply (returned_record_removes_image (flaky_model 2) "inv1.pdf" 3 5 env0
           (snd (process_pdf (flaky_model 2) "inv1.pdf" 3 5 env0)) inv1_record).
  vm_compute. reflexivity.
Defined.

(** X10: the only file [process_pdf] ever removes is the document's own temp
    image: every other file of temp_dir, the uploads and the page images of
    the rasteriser among them, is still there when it returns. *)
Theorem process_pdf_keeps_other_files (W : nat -> attempt_world) (pdf_file : string)
    (max_retries retry_delay : Z) (st : env) (path : string) :
  path ∈ fs st ->
  path <> temp_image_name pdf_file ->
  path ∈ fs (snd (process_pdf W pdf_file max_retries retry_delay st)).
Proof.
  intros Hin Hne.
  destruct (process_pdf_run W pdf_file max_retries retry_delay st)
    as (st1 & Hrun & _ & _ & Hfs & _).
  rewrite Hrun. cbn [snd]. rewrite Hfs. by apply files_after_frame.
Qed.

Lemma process_pdf_keeps_other_files_witness :
  "inv1.pdf" ∈ fs (snd (process_pdf (flaky_model 0) "inv1.pdf" 3 5
                          (set_fs (fun _ => {["inv1.pdf"]}) env0))).
Proof.
  apply (process_pdf_keeps_other_files (flaky_model 0) "inv1.pdf" 3 5
           (set_fs (fun _ => {["inv1.pdf"]}) env0) "inv1.pdf").
  - apply (bool_decide_unpack _). vm_compute. exact I.
  - vm_compute. discriminate.
Defined.

(** ** A run of the script, seen from outside *)

Section RunFacts2.
Import PyStr.

Lemma refresh_cache_id_or_reset files ss :
  refresh_cache files ss = ss \/
  refresh_cache files ss = {| data := None; uploaded_file_names := sorted (map name files) |}.
Proof. unfold refresh_cache. destruct (_ || _); eauto. Qed.



Lemma status_events_last files idx total_files :
  files <> [] ->
  last (status_events files idx total_files)
  = Some (Progress (idx + length files) total_files).
Proof.
  revert idx. induction files as [|f rest IH]; intros idx Hne; [done|].
  cbn [status_events length].
  destruct rest as [|g rest'].
  - cbn. replace (idx + 1)%nat with (S idx) by lia.
    by destruct (fails_all_retries f).
  - specialize (IH (S idx) ltac:(done)).
    replace (idx + S (length (g :: rest')))%nat with (S idx + length (g :: rest'))%nat by lia.
    rewrite <- IH.
    remember (status_events (g :: rest') (S idx) total_files) as tail eqn:Htail.
    assert (tail <> []) as Hnil by (subst tail; done).
    destruct tail as [|t tail']; [done|].
    destruct (fails_all_retries f); cbn [app]; by rewrite ?last_cons_cons.
Qed.

End RunFacts2.

(** X11: a run never leaves a file behind in temp_dir: if temp_dir was empty
    before the run it is empty after it, and after any run that called the
    rasteriser it is empty whatever it held before. *)
Theorem run_script_leaves_temp_dir_empty (files : list uploaded_file) (ss : session_state)
    (st : env) :
  (fs st = ∅ -> fs (snd (run_script files ss st)) = ∅) /\
  (raster_calls (snd (run_script files ss st)) <> raster_calls st ->
   fs (snd (run_script files ss st)) = ∅).
Proof.
  destruct (run_script_cases files ss st)
    as [[-> ->]|[(_ & d & _ & ->)|(_ & _ & st1 & Hbatch & ->)]];
    cbn [snd fs raster_calls]; try done.
  destruct (process_batch_spec files (refresh_cache files ss) st) as (st2 & Hbatch' & _ & _ & Hfs).
  rewrite Hbatch in Hbatch'. injection Hbatch' as <-. done.
Qed.

Lemma run_script_leaves_temp_dir_empty_witness :
  fs (snd (run_script [scan_pdf; inv1_pdf] initial_session env0)) = ∅.
Proof.
  apply (proj1 (run_script_leaves_temp_dir_empty [scan_pdf; inv1_pdf] initial_session env0)).
  reflexivity.
Defined.




(** ** What the page shows *)

Section StatusFacts.

Lemma filter_failed_status evs :
  List.filter is_failed (List.filter is_status evs) = List.filter is_failed evs.
Proof.
  induction evs as [|ev evs IH]; [done|]. cbn.
  destruct ev; cbn; by rewrite ?IH.
Qed.

Lemma status_events_failed files idx total_files :
  length (List.filter is_failed (status_events files idx total_files))
  = length (List.filter fails_all_retries files).
Proof.
  revert idx. induction files as [|f rest IH]; intros idx; [done|].
  cbn [status_events List.filter is_failed].
  destruct (fails_all_retries f); cbn; by rewrite IH.
Qed.

End StatusFacts.

(** X14: the status line and the progress bar over a batch.  In between the
    messages of [process_pdf] the loop shows, document by document in upload
    order, the document's name, [Failed] if it has no record, and the
    progress [idx + 1] of [N]; so [Failed] is shown once per failed document
    and the last progress shown is [N] of [N]. *)
Theorem status_line_and_progress (files : list uploaded_file) (st : env) :
  exists evs,
    ui (snd (process_files files 0 (length files) [] st)) = ui st ++ evs /\
    List.filter is_status evs = status_events files 0 (length files) /\
    length (List.filter is_failed evs) = length (List.filter fails_all_retries files) /\
    (files <> [] ->
     last (List.filter is_status evs) = Some (Progress (length files) (length files))).
Proof.
  destruct (process_files_events files 0 (length files) [] st) as (evs & Hui & Hfilter & _).
  exists evs. split_and!; try done.
  - by rewrite <- filter_failed_status, Hfilter, status_events_failed.
  - intros Hne. rewrite Hfilter. by rewrite status_events_last.
Qed.

(** X15: the error for an empty list of PDF files (line 58) is never shown:
    the branch that builds the list is entered with at least one upload. *)
Theorem no_pdf_files_error_unreachable (files : list uploaded_file) (ss : session_state)
    (st : env) :
  exists evs,
    ui (snd (run_script files ss st)) = ui st ++ evs /\ NoPDFFiles ∉ evs.
Proof.
  destruct (run_script_cases files ss st)
    as [[-> ->]|[(_ & d & _ & ->)|(Hne & _ & st1 & Hbatch & ->)]]; cbn [snd ui].
  - exists []. rewrite app_nil_r. split; [done|]. apply not_elem_of_nil.
  - eexists. split; [done|].
    intros [[=]|[Hd|[]%elem_of_nil]%elem_of_cons]%elem_of_cons. by destruct d.
  - destruct (process_batch_events files (refresh_cache files ss) st Hne)
      as (evs & Hui & _ & Hevs).
    rewrite Hbatch in Hui. cbn [snd] in Hui. rewrite Hui.
    eexists. split; [by rewrite <- app_assoc|].
    intros Hin. cbn in Hin.
    apply elem_of_cons in Hin as [[=]|Hin].
    apply elem_of_app in Hin as [Hin|Hin].
    + apply elem_of_app in Hin as [Hin|Hin].
      * rewrite Forall_forall in Hevs. by destruct (Hevs _ Hin).
      * apply elem_of_cons in Hin as [[=]|Hin].
        destruct (batch_records files); [|by apply elem_of_nil in Hin].
        by apply elem_of_cons in Hin as [[=]|?%elem_of_nil].
    + apply elem_of_cons in Hin as [Hin|?%elem_of_nil]; [|done].
      by destruct (batch_records files).
Qed.



(** ** Time slept by a batch, rows, independence *)

Section BatchFacts2.

Lemma batch_raster_calls_ge files : (length files <= batch_raster_calls files)%nat.
Proof.
  unfold batch_raster_calls. induction files as [|f rest IH]; [done|].
  cbn. pose proof (attempts_of_nonempty f). lia.
Qed.

Lemma process_files_slept files idx total_files data st :
  slept (snd (process_files files idx total_files data st))
  = slept st + default_retry_delay * Z.of_nat (batch_raster_calls files - length files).
Proof.
  revert idx data st. induction files as [|file rest IH]; intros idx data st.
  - cbn. lia.
  - set (st0 := {| fs := fs st; raster_calls := raster_calls st;
                   model_calls := model_calls st; slept := slept st;
                   ui := ui st ++ [Processing (name file)] |}).
    destruct (process_pdf_spec file st0) as (st1 & Hrun & _).
    destruct (process_pdf_events (external file) (name file) default_max_retries
                default_retry_delay st0) as [_ Hslept1].
    rewrite Hrun in Hslept1. cbn [snd] in Hslept1. fold (attempts_of file) in Hslept1.
    subst st0. cbn [slept] in Hslept1.
    pose proof (attempts_of_nonempty file) as Hpos.
    pose proof (batch_raster_calls_ge rest) as Hge.
    assert (Harith :
      slept st1 + default_retry_delay * Z.of_nat (batch_raster_calls rest - length rest)
      = slept st + default_retry_delay
                   * Z.of_nat (batch_raster_calls (file :: rest) - length (file :: rest))).
    { rewrite Hslept1. unfold batch_raster_calls in *. cbn [map sum_list length].
      destruct (length (attempts_of file)); [lia|]. cbn [pred].
      unfold default_retry_delay. lia. }
    destruct (document_result file) as [extracted_data|] eqn:Hres.
    + assert (Hstep : process_files (file :: rest) idx total_files data st
                      = process_files rest (S idx) total_files (data ++ [extracted_data])
                          {| fs := fs st1; raster_calls := raster_calls st1;
                             model_calls := model_calls st1; slept := slept st1;
                             ui := ui st1 ++ [Progress (S idx) total_files] |}).
      { cbn [process_files]. run. rewrite Hrun. reflexivity. }
      rewrite Hstep, IH. cbn [slept]. exact Harith.
    + assert (Hstep : process_files (file :: rest) idx total_files data st
                      = process_files rest (S idx) total_files data
                          {| fs := fs st1; raster_calls := raster_calls st1;
                             model_calls := model_calls st1; slept := slept st1;
                             ui := (ui st1 ++ [Failed]) ++ [Progress (S idx) total_files] |}).
      { cbn [process_files]. run. rewrite Hrun. reflexivity. }
      rewrite Hstep, IH. cbn [slept]. exact Harith.
Qed.

Lemma save_uploads_slept files pdf_files st :
  slept (snd (save_uploads files pdf_files st)) = slept st.
Proof.
  revert pdf_files st. induction files as [|file rest IH]; intros pdf_files st; [done|].
  cbn [save_uploads]. unfold mbind, M_bind, bind, write_file. cbn. by rewrite IH.
Qed.

Lemma process_batch_slept files ss st :
  slept (snd (process_batch files ss st))
  = slept st + default_retry_delay * Z.of_nat (batch_raster_calls files - length files).
Proof.
  unfold process_batch, with_temporary_directory.
  destruct (save_uploads_spec files [] (set_fs (fun _ => ∅) st)) as (sa & Hsave & _).
  pose proof (save_uploads_slept files [] (set_fs (fun _ => ∅) st)) as Hsa.
  rewrite Hsave in Hsa. cbn [snd app] in Hsa, Hsave.
  run. rewrite Hsave.
  destruct (map name files) as [|n ns]; cbn.
  all: match goal with |- context [process_files ?f ?i ?t ?d ?s] =>
         pose proof (process_files_slept f i t d s) as Hloop;
         destruct (process_files_spec f i t d s) as (sc & Hrun & _) end.
  all: rewrite Hrun in Hloop |- *; cbn in Hloop; cbn.
  all: destruct (batch_records files); cbn; rewrite Hloop, Hsa; reflexivity.
Qed.

End BatchFacts2.

(** X17: the time a run spends sleeping.  Either the run calls the
    rasteriser at least once per uploaded document and sleeps five seconds
    for every call beyond that, so at most ten seconds per document; or it
    makes no rasteriser call and does not sleep. *)
Theorem run_script_sleeps (files : list uploaded_file) (ss : session_state) (st : env) :
  let st' := snd (run_script files ss st) in
  (raster_calls st' = raster_calls st /\ slept st' = slept st) \/
  ((raster_calls st + length files <= raster_calls st')%nat /\
   slept st' = slept st + 5 * Z.of_nat (raster_calls st' - raster_calls st - length files) /\
   slept st' <= slept st + 10 * Z.of_nat (length files)).
Proof.
  cbn zeta.
  destruct (run_script_cases files ss st)
    as [[-> ->]|[(_ & d & _ & ->)|(_ & _ & st1 & Hbatch & ->)]];
    cbn [snd raster_calls slept]; [by left|by left|right].
  destruct (process_batch_spec files (refresh_cache files ss) st)
    as (st2 & Hbatch' & Hr & _).
  rewrite Hbatch in Hbatch'. injection Hbatch' as <-.
  pose proof (process_batch_slept files (refresh_cache files ss) st) as Hslept.
  rewrite Hbatch in Hslept. cbn [snd] in Hslept.
  pose proof (batch_raster_calls_ge files). destruct (batch_calls_bound files) as [Hle _].
  rewrite Hslept, Hr. change default_retry_delay with 5.
  split_and!; [lia| |lia].
  f_equal. f_equal. lia.
Qed.

Section RowFacts.



Lemma make_table_pdf_file_column records :
  map (fun row => cell (make_table records) row "pdf_file") (rows (make_table records))
  = map (fun r => dict_get r "pdf_file") records.
Proof.
  unfold make_table. rewrite reindex_frame. cbn [columns rows].
  rewrite map_map. apply map_ext. intros r. reflexivity.
Qed.

End RowFacts.



(** X19: documents are processed independently.  What [process_pdf] returns
    for a document does not depend on the state it starts in (the files of
    temp_dir, the calls made and the messages shown for earlier documents),
    and two batches with the same uploads in different orders yield the same
    records up to order. *)
Theorem documents_independent (W : nat -> attempt_world) (pdf_file : string)
    (max_retries retry_delay : Z) (st1 st2 : env) (files1 files2 : list uploaded_file) :
  fst (process_pdf W pdf_file max_retries retry_delay st1)
  = fst (process_pdf W pdf_file max_retries retry_delay st2) /\
  (files1 ≡ₚ files2 ->
   exists records1 records2,
     fst (process_files files1 0 (length files1) [] st1) = Return records1 /\
     fst (process_files files2 0 (length files2) [] st2) = Return records2 /\
     records1 ≡ₚ records2).
Proof.
  split.
  - destruct (process_pdf_run W pdf_file max_retries retry_delay st1) as (sa & -> & _).
    by destruct (process_pdf_run W pdf_file max_retries retry_delay st2) as (sb & -> & _).
  - intros Hperm.
    destruct (process_files_spec files1 0 (length files1) [] st1) as (sa & -> & _).
    destruct (process_files_spec files2 0 (length files2) [] st2) as (sb & -> & _).
    eexists _, _. split; [done|]. split; [done|]. cbn [app].
    unfold batch_records. by rewrite Hperm.
Qed.

Lemma documents_independent_witness :
  exists records1 records2,
    fst (process_files [scan_pdf; inv1_pdf] 0 (length [scan_pdf; inv1_pdf]) [] env0)
    = Return records1 /\
    fst (process_files [inv1_pdf; scan_pdf] 0 (length [inv1_pdf; scan_pdf]) [] env0)
    = Return records2 /\
    records1 ≡ₚ records2.
Proof.
  apply (documents_independent dead_model "scan.pdf" 3 5 env0 env0
           [scan_pdf; inv1_pdf] [inv1_pdf; scan_pdf]).
  apply perm_swap.
Defined.

(** X20: the table offered by a run never shows a document that is not among
    the current uploads.  A session is consistent when each of its records
    carries a name of the uploads it is keyed by; every run keeps a
    consistent session consistent, and each name in the [pdf_file] column of
    an offered table is the name of one of the files just uploaded. *)
Theorem offered_table_belongs_to_uploads (files : list uploaded_file)
    (ss ss' : session_state) (st st' : env) (offered : option DataFrame) :
  session_consistent ss ->
  run_script files ss st = (Return (ss', offered), st') ->
  session_consistent ss' /\
  (forall table c,
     offered = Some table ->
     c ∈ map (fun row => cell table row "pdf_file") (rows table) ->
     exists f, f ∈ files /\ c = Some (JString (name f))).
Proof.
  intros Hcons Hrun.
  assert (Hcons' : session_consistent ss').
  { destruct (run_script_cases files ss st)
      as [[-> Heq]|[(_ & d & Hd & Heq)|(Hne & Hd & st1 & _ & Heq)]];
      rewrite Heq in Hrun; injection Hrun as <- _ _.
    - done.
    - destruct (refresh_cache_id_or_reset files ss) as [->|Hreset]; [done|].
      rewrite Hreset in Hd. done.
    - intros records r. destruct (batch_records files) as [|r0 rs] eqn:Hrecords.
      + cbn [session_after]. by rewrite Hd.
      + cbn [session_after data uploaded_file_names]. intros [= <-] Hr.
        rewrite <- Hrecords in Hr. unfold batch_records in Hr.
        apply list_elem_of_omap in Hr as (f & Hf & Hres).
        exists (name f). split.
        * rewrite refresh_cache_names. unfold PyStr.sorted.
          rewrite merge_sort_Permutation. apply list_elem_of_In, in_map.
          by apply list_elem_of_In.
        * by apply first_success_pdf_file in Hres. }
  split; [done|].
  intros table c -> Hc.
  apply run_script_table in Hrun as (_ & Hnames & r & rs & Hdata & ->).
  rewrite make_table_pdf_file_column in Hc.
  apply list_elem_of_In, in_map_iff in Hc as (r' & <- & Hr'%list_elem_of_In).
  destruct (Hcons' _ _ Hdata Hr') as (n & Hn & ->).
  rewrite Hnames in Hn. unfold PyStr.sorted in Hn. rewrite merge_sort_Permutation in Hn.
  apply list_elem_of_In, in_map_iff in Hn as (f & <- & Hf%list_elem_of_In). eauto.
Qed.

Lemma offered_table_belongs_to_uploads_witness :
  session_consistent {| data := Some [inv1_record]; uploaded_file_names := ["inv1.pdf"] |} /\
  (forall table c,
     Some inv1_table = Some table ->
     c ∈ map (fun row => cell table row "pdf_file") (rows table) ->
     exists f, f ∈ [inv1_pdf] /\ c = Some (JString (name f))).
Proof.
  apply (offered_table_belongs_to_uploads [inv1_pdf] initial_session
           {| data := Some [inv1_record]; uploaded_file_names := ["inv1.pdf"] |}
           env0 (snd (run_script [inv1_pdf] initial_session env0)) (Some inv1_table)).
  - intros records r [=].
  - vm_compute. reflexivity.
Defined.
